(** * bilibili-summarizer: the page-processing pipeline

    A shallow embedding of [main.py], [summarize.py], [read_prompt.py] and
    [generate_subtitles.py].  Python strings are sequences of Unicode code
    points; the filesystem is a finite map from path strings to files; the
    remote services (video platform, HTTP, speech-to-text, completion
    service) are an interface whose operations act on an abstract world.
    Every function of the program is a computation in a monad that threads
    the program state, may raise a Python exception, and emits the
    observable events (log records, sleeps, service calls, file writes and
    removals) in program order. *)

From Stdlib Require Import QArith DecimalN.
From stdpp Require Import gmap strings list fin_maps.

Open Scope Z_scope.

(** ** Python strings *)

(** A character is a Unicode code point, a [str] is a list of them. *)
Definition char := N.
Definition str := list char.
Definition path := str.

(** String literals of the source, from their ASCII spelling. *)
Definition lit (s : string) : str :=
  map Ascii.N_of_ascii (String.list_ascii_of_string s).

(** [str.isspace] of one character: the code points CPython's
    [_PyUnicode_IsWhitespace] accepts. *)
Definition isspace (c : char) : bool :=
  ((9 <=? c) && (c <=? 13) || (28 <=? c) && (c <=? 32)
   || (c =? 133) || (c =? 160) || (c =? 5760)
   || (8192 <=? c) && (c <=? 8202)
   || (c =? 8232) || (c =? 8233) || (c =? 8239) || (c =? 8287)
   || (c =? 12288))%N.

Fixpoint dropwhile {A} (p : A -> bool) (l : list A) : list A :=
  match l with
  | [] => []
  | x :: r => if p x then dropwhile p r else l
  end.

(** [s.lstrip()], [s.rstrip()] and [s.strip()] without arguments. *)
Definition lstrip (s : str) : str := dropwhile isspace s.
Definition rstrip (s : str) : str := rev (dropwhile isspace (rev s)).
Definition strip (s : str) : str := lstrip (rstrip s).

(** Truth value of a string: the empty string is false. *)
Definition truthy (s : str) : bool :=
  match s with [] => false | _ => true end.

(** [sep.join(parts)]. *)
Fixpoint join (sep : str) (parts : list str) : str :=
  match parts with
  | [] => []
  | [p] => p
  | p :: rest => p ++ sep ++ join sep rest
  end.

(** Decimal digits of a natural number, most significant first. *)
Fixpoint uint_digits (d : Decimal.uint) : str :=
  match d with
  | Decimal.Nil => []
  | Decimal.D0 r => 48%N :: uint_digits r
  | Decimal.D1 r => 49%N :: uint_digits r
  | Decimal.D2 r => 50%N :: uint_digits r
  | Decimal.D3 r => 51%N :: uint_digits r
  | Decimal.D4 r => 52%N :: uint_digits r
  | Decimal.D5 r => 53%N :: uint_digits r
  | Decimal.D6 r => 54%N :: uint_digits r
  | Decimal.D7 r => 55%N :: uint_digits r
  | Decimal.D8 r => 56%N :: uint_digits r
  | Decimal.D9 r => 57%N :: uint_digits r
  end.

Definition digits (n : N) : str := uint_digits (N.to_uint n).

(** [str(n)] and [f"{n}"] of an integer. *)
Definition str_of_int (n : Z) : str :=
  if n <? 0 then lit "-" ++ digits (Z.abs_N n) else digits (Z.abs_N n).

(** [f"{n:03d}"]: zero padded to width three, the sign counted in the
    width and written before the zeros. *)
Definition format_03d (n : Z) : str :=
  let sign := if n <? 0 then lit "-" else [] in
  let body := digits (Z.abs_N n) in
  sign ++ repeat 48%N (3 - length sign - length body)%nat ++ body.

(** ** Paths *)

Definition startswith (pre s : str) : bool := bool_decide (pre `prefix_of` s).
Definition endswith (suf s : str) : bool := bool_decide (suf `suffix_of` s).

(** [os.path.join(a, b)] on a POSIX system. *)
Definition os_path_join (a b : path) : path :=
  if startswith (lit "/") b then b
  else if negb (truthy a) || endswith (lit "/") a then a ++ b
  else a ++ lit "/" ++ b.

(** ** Cache configuration *)

Definition CACHE_DIR : path := lit ".cache/subtitles".
Definition CACHE_MAX_AGE_DAYS : Z := 30.

(** ** Exceptions, events, program state *)

(** The exception classes the program tells apart.  [ClientError] is
    [aiohttp.ClientError] with its subclasses, [TimeoutError] is
    [asyncio.TimeoutError], [FileNotFoundError] and [OSError] are the
    operating system's errors, [OtherException] is any other subclass of
    [Exception]. *)
Inductive exn :=
| ClientError
| TimeoutError
| FileNotFoundError
| OSError
| OtherException.

(** [except (aiohttp.ClientError, asyncio.TimeoutError)]. *)
Definition is_network_error (e : exn) : bool :=
  match e with ClientError | TimeoutError => true | _ => false end.

(** [except OSError]: [FileNotFoundError] and the built-in timeout are
    subclasses of it. *)
Definition is_os_error (e : exn) : bool :=
  match e with
  | FileNotFoundError | OSError | TimeoutError => true
  | _ => false
  end.

Inductive level := INFO | WARNING | ERROR.

(** One constructor per logging statement of the source, with the values
    its message is formatted from. *)
Inductive msg :=
| MsgCleaning (directory : path) (max_age_days : Z)
| MsgCleanupError (file_path : path) (e : exn)
| MsgRemoved (cleaned_count : Z)
| MsgNoOutdated
| MsgSaved (file_path : path)
| MsgCacheLoad (page_number : Z)
| MsgCacheMiss (page_number : Z)
| MsgOfficialFound (page_number : Z)
| MsgGenerating (page_number : Z)
| MsgCacheSave (page_number : Z)
| MsgProcessing (save_page_number : Z) (title : str)
| MsgEmptySubtitle (save_page_number : Z)
| MsgSummaryFailed (save_page_number : Z)
| MsgNetworkError (save_page_number : Z) (attempt max_retries : Z) (e : exn)
| MsgRetriesExhausted (save_page_number : Z) (max_retries : Z)
| MsgUnexpected (save_page_number : Z) (e : exn)
| MsgFoundPages (count : Z) (bvid : str)
| MsgPagesFailed (bvid : str) (e : exn)
| MsgSkipping (save_page_number : Z) (title : str)
| MsgFoundVideos (count : Z) (season_id : Z)
| MsgSeasonPagesFailed (bvid : str) (e : exn).

(** The external operations the program awaits. *)
Inductive service_call :=
| CallGetPages (bvid : str)
| CallGetCid (bvid : str) (page_index : Z)
| CallGetSubtitle (bvid : str) (cid : Z)
| CallHttpGet (url : str)
| CallDownloadAudio (bvid : str) (page_number : Z)
| CallTranscribe (model_size device : str)
| CallCompletion (prompt user_content : str)
| CallGetVideos (season_id : Z).

(** What a run does, in order.  [exc_info] is the flag of that name of
    [logging.error]: the traceback is attached to the record. *)
Inductive event :=
| EvLog (lvl : level) (m : msg) (exc_info : bool)
| EvSleep (seconds : Z)
| EvCall (c : service_call)
| EvMkdir (p : path)
| EvWrite (p : path) (content : str)
| EvRemove (p : path).

Inductive outcome (A : Type) :=
| Ok (a : A)
| Raise (e : exn).
Arguments Ok {A} a.
Arguments Raise {A} e.

(** A page as [Video.get_pages] returns it: the keys [page] and [part]. *)
Record page_details := { page : Z; part : str }.

(** Official subtitle metadata: [None] for an absent or empty answer,
    otherwise the [subtitle_url] of each listed track. *)
Definition subtitle_data := option (list str).

Inductive subtitle_type := Text | Timestamped.

(** A speech segment of the transcription model. *)
Record segment := { seg_start : Q; seg_end : Q; seg_text : str }.

(** Shape of a completion response, as [summarize] inspects it. *)
Inductive message := Message (content : option str) | NotAMessage.
Inductive choice := Choices (m : message) | NotChoices.
Inductive response :=
| ModelResponse (choices : option (list choice))
| NotAModelResponse.

(** Command line arguments. *)
Record arguments := {
  arg_bvid : str;
  arg_season_id : option Z;
  arg_start_page : Z;
  arg_end_page : option Z;
  arg_prompt : str;
  arg_output_dir : path;
  arg_device : str;
  arg_model_size : str
}.

(** What a sequence of events did: the attempts started, the files
    written and removed, the sleeps, the collaborators called. *)
Definition is_attempt_start (ev : event) : bool :=
  match ev with EvLog INFO (MsgProcessing _ _) _ => true | _ => false end.

Definition attempts_made (evs : list event) : nat :=
  length (filter (fun ev => is_attempt_start ev) evs).

Definition started (evs : list event) : list (Z * str) :=
  omap (fun ev => match ev with
                  | EvLog INFO (MsgProcessing sn title) _ => Some (sn, title)
                  | _ => None
                  end) evs.

Definition written (evs : list event) : list (path * str) :=
  omap (fun ev => match ev with EvWrite p c => Some (p, c) | _ => None end) evs.

Definition removed (evs : list event) : list path :=
  omap (fun ev => match ev with EvRemove p => Some p | _ => None end) evs.

Definition sleeps (evs : list event) : list Z :=
  omap (fun ev => match ev with EvSleep s => Some s | _ => None end) evs.

Definition calls (evs : list event) : list service_call :=
  omap (fun ev => match ev with EvCall c => Some c | _ => None end) evs.

Definition is_completion_call (c : service_call) : bool :=
  match c with CallCompletion _ _ => true | _ => false end.

(** The save numbers in the skip and processing log records, in order. *)
Definition save_numbers (evs : list event) : list Z :=
  omap (fun ev => match ev with
                  | EvLog INFO (MsgSkipping n _) _ => Some n
                  | EvLog INFO (MsgProcessing n _) _ => Some n
                  | _ => None
                  end) evs.

(** A list without its immediate repetitions. *)
Fixpoint squeeze (l : list Z) : list Z :=
  match l with
  | [] => []
  | x :: r =>
      match r with
      | y :: _ => if x =? y then squeeze r else x :: squeeze r
      | [] => [x]
      end
  end.

(** [blocks c l c']: [l] is made of [c] one or more times, then [c + 1]
    one or more times, and so on up to [c' - 1]. *)
Inductive blocks : Z -> list Z -> Z -> Prop :=
| blocks_nil (c : Z) : blocks c [] c
| blocks_cons (c : Z) (k : nat) (l : list Z) (c' : Z) :
    (0 < k)%nat -> blocks (c + 1) l c' -> blocks c (replicate k c ++ l) c'.

(** ** The external collaborators

    [bilibili_api], [aiohttp], [faster_whisper] and [litellm] are libraries,
    and the module [download_audio] is the audio download collaborator of
    the specification; all are taken as an interface.  Each awaited
    operation takes the state of the outside world and answers with a value
    or an exception, and a new state of the world.  An exception stands for
    a subclass of [Exception]; interrupts and cancellation are not
    modelled.  [isalnum] is [str.isalnum] of one character (the Unicode
    database), [format_timestamp] the floating-point formatting of
    [generate_subtitles.format_timestamp]. *)
Record services (W audio : Type) := {
  isalnum : char -> bool;
  format_timestamp : Q -> str;
  video_get_pages : str -> W -> outcome (list page_details) * W;
  video_get_cid : str -> Z -> W -> outcome Z * W;
  video_get_subtitle : str -> Z -> W -> outcome subtitle_data * W;
  http_get_json_body : str -> W -> outcome (list str) * W;
  download_audio : str -> Z -> W -> outcome audio * W;
  whisper_transcribe : audio -> str -> str -> str -> W -> outcome (list segment) * W;
  acompletion : str -> str -> W -> outcome response * W;
  series_get_videos : Z -> W -> outcome (list str) * W
}.
Arguments isalnum {W audio} _ _.
Arguments format_timestamp {W audio} _ _.
Arguments video_get_pages {W audio} _ _ _.
Arguments video_get_cid {W audio} _ _ _ _.
Arguments video_get_subtitle {W audio} _ _ _ _.
Arguments http_get_json_body {W audio} _ _ _.
Arguments download_audio {W audio} _ _ _ _.
Arguments whisper_transcribe {W audio} _ _ _ _ _ _.
Arguments acompletion {W audio} _ _ _ _.
Arguments series_get_videos {W audio} _ _ _.

(** The program state: the files with their content and modification
    time, the directories, the clock, the paths on which the operating
    system refuses [os.path.getmtime] and [os.remove], and the world. *)
Record state (W : Type) := {
  files : gmap path (str * Q);
  dirs : gset path;
  clock : Q;
  stat_denied : gset path;
  remove_denied : gset path;
  world : W
}.
Arguments files {W} _.
Arguments dirs {W} _.
Arguments clock {W} _.
Arguments stat_denied {W} _.
Arguments remove_denied {W} _.
Arguments world {W} _.

Definition set_files {W : Type} (f : gmap path (str * Q)) (st : state W) : state W :=
  {| files := f; dirs := dirs st; clock := clock st;
     stat_denied := stat_denied st; remove_denied := remove_denied st;
     world := world st |}.

Definition set_dirs {W : Type} (d : gset path) (st : state W) : state W :=
  {| files := files st; dirs := d; clock := clock st;
     stat_denied := stat_denied st; remove_denied := remove_denied st;
     world := world st |}.

Definition set_clock {W : Type} (t : Q) (st : state W) : state W :=
  {| files := files st; dirs := dirs st; clock := t;
     stat_denied := stat_denied st; remove_denied := remove_denied st;
     world := world st |}.

Definition set_world {W : Type} (w : W) (st : state W) : state W :=
  {| files := files st; dirs := dirs st; clock := clock st;
     stat_denied := stat_denied st; remove_denied := remove_denied st;
     world := w |}.

(** ** The monad of the program *)

Definition M (W A : Type) : Type := state W -> outcome A * state W * list event.

Definition ret {W A : Type} (a : A) : M W A := fun st => (Ok a, st, []).

Definition raise {W A : Type} (e : exn) : M W A := fun st => (Raise e, st, []).

Definition bind {W A B : Type} (m : M W A) (k : A -> M W B) : M W B := fun st =>
  match m st with
  | (Ok a, st1, ev1) =>
      match k a st1 with (r, st2, ev2) => (r, st2, ev1 ++ ev2) end
  | (Raise e, st1, ev1) => (Raise e, st1, ev1)
  end.

(** [try: m  except Exception as e: handler e]. *)
Definition try_except {W A : Type} (m : M W A) (handler : exn -> M W A) : M W A := fun st =>
  match m st with
  | (Ok a, st1, ev1) => (Ok a, st1, ev1)
  | (Raise e, st1, ev1) =>
      match handler e st1 with (r, st2, ev2) => (r, st2, ev1 ++ ev2) end
  end.

#[global] Instance M_ret {W : Type} : MRet (M W) := @ret W.
#[global] Instance M_bind {W : Type} : MBind (M W) := fun A B k m => bind m k.

(** [for x in l: body x]. *)
Fixpoint for_each {W A : Type} (l : list A) (body : A -> M W unit) : M W unit :=
  match l with
  | [] => ret tt
  | x :: rest => body x;; for_each rest body
  end.

(** A loop that carries one local variable from iteration to iteration. *)
Fixpoint for_fold {W A S : Type} (l : list A) (s : S) (body : S -> A -> M W S) : M W S :=
  match l with
  | [] => ret s
  | x :: rest => s' ← body s x; for_fold rest s' body
  end.

(** ** Primitive operations *)

Definition logging {W : Type} (lvl : level) (m : msg) : M W unit :=
  fun st => (Ok tt, st, [EvLog lvl m false]).

(** [logging.error(..., exc_info=True)]. *)
Definition logging_exc {W : Type} (m : msg) : M W unit :=
  fun st => (Ok tt, st, [EvLog ERROR m true]).

(** [await asyncio.sleep(seconds)]: the clock advances. *)
Definition asyncio_sleep {W : Type} (seconds : Z) : M W unit :=
  fun st => (Ok tt, set_clock (clock st + inject_Z seconds)%Q st, [EvSleep seconds]).

(** An awaited call of a collaborator. *)
Definition await {W A : Type} (c : service_call) (f : W -> outcome A * W) : M W A :=
  fun st => match f (world st) with (r, w) => (r, set_world w st, [EvCall c]) end.

Definition time_time {W : Type} : M W Q := fun st => (Ok (clock st), st, []).

(** Whether [p] names a file, and whether it names a file or a directory. *)
Definition is_file {W : Type} (st : state W) (p : path) : bool :=
  bool_decide (is_Some (files st !! p)).

Definition path_exists {W : Type} (st : state W) (p : path) : bool :=
  is_file st p || bool_decide (p ∈ dirs st).

Definition os_path_exists {W : Type} (p : path) : M W bool :=
  fun st => (Ok (path_exists st p), st, []).

Definition os_path_isfile {W : Type} (p : path) : M W bool :=
  fun st => (Ok (is_file st p), st, []).

(** [os.makedirs(p, exist_ok=True)].  Creating a directory and writing a
    file always succeed in this model: paths are keys of a flat store, and
    failures of the operating system on these two operations (an unusable
    path, permissions, a full disk) are outside it. *)
Definition os_makedirs {W : Type} (p : path) : M W unit :=
  fun st => (Ok tt, set_dirs ({[p]} ∪ dirs st) st, [EvMkdir p]).

(** [with open(p, "w", encoding="utf-8") as f: f.write(content)]. *)
Definition write_text {W : Type} (p : path) (content : str) : M W unit :=
  fun st => (Ok tt, set_files (<[p := (content, clock st)]> (files st)) st, [EvWrite p content]).

(** [with open(p, "r", encoding="utf-8") as f: f.read()]; the text read is
    the text written (encoding and newline translation are not modelled). *)
Definition read_text {W : Type} (p : path) : M W str :=
  fun st =>
    match files st !! p with
    | Some (content, _) => (Ok content, st, [])
    | None =>
        if bool_decide (p ∈ dirs st) then (Raise OSError, st, [])
        else (Raise FileNotFoundError, st, [])
    end.

(** [os.path.getmtime(p)] and [os.remove(p)] raise [OSError] on the paths
    the operating system refuses. *)
Definition os_path_getmtime {W : Type} (p : path) : M W Q :=
  fun st =>
    if bool_decide (p ∈ stat_denied st) then (Raise OSError, st, [])
    else match files st !! p with
         | Some (_, mtime) => (Ok mtime, st, [])
         | None => (Raise FileNotFoundError, st, [])
         end.

Definition os_remove {W : Type} (p : path) : M W unit :=
  fun st =>
    if bool_decide (p ∈ remove_denied st) then (Raise OSError, st, [])
    else match files st !! p with
         | Some _ => (Ok tt, set_files (delete p (files st)) st, [EvRemove p])
         | None => (Raise FileNotFoundError, st, [])
         end.

(** [Some r] when [s = pre ++ r]. *)
Fixpoint remove_prefix (pre s : str) : option str :=
  match pre, s with
  | [], _ => Some s
  | a :: pre', b :: s' => if (a =? b)%N then remove_prefix pre' s' else None
  | _ :: _, [] => None
  end.

(** The name under which [p] is listed in [directory], if it is one of
    its entries: [p] is [os.path.join(directory, name)] for a name that is
    not empty and has no separator. *)
Definition entry_name (directory p : path) : option str :=
  match remove_prefix (os_path_join directory []) p with
  | Some name =>
      if truthy name && negb (bool_decide (47%N ∈ name)) then Some name else None
  | None => None
  end.

(** [os.listdir(directory)]. *)
Definition os_listdir {W : Type} (directory : path) : M W (list str) :=
  fun st => (Ok (omap (entry_name directory)
                   (elements (dom (files st) ∪ dirs st))), st, []).

(** [sub in s] for strings. *)
Fixpoint contains (sub s : str) : bool :=
  startswith sub s || match s with [] => false | _ :: r => contains sub r end.

(** The fixed instruction [summarize] puts before the transcript. *)
Definition summarize_instruction : str :=
  [20197; 26368; 31616; 12289; 39640; 25928; 12289; 31185; 23398; 30340;
   26041; 24335; 24635; 32467; 20197; 19979; 20869; 23481; 65306]%N.

(** A [video.Video] object: the video it stands for. *)
Record video := Video { video_bvid : str }.

(** ** A sample world

    A platform whose content-id lookup fails a given number of times with a
    given exception before it answers; every video has official subtitles,
    and the completion service answers in the expected shape. *)

Definition ascii_isalnum (c : char) : bool :=
  ((48 <=? c) && (c <=? 57) || (65 <=? c) && (c <=? 90)
   || (97 <=? c) && (c <=? 122))%N.

Definition sample_pages (bvid : str) : list page_details :=
  if bool_decide (bvid = lit "BV1") then
    [ {| page := 1; part := lit "Intro" |}; {| page := 2; part := lit "Ep:1 / Intro?" |} ]
  else
    [ {| page := 1; part := lit "a" |}; {| page := 2; part := lit "b" |};
      {| page := 3; part := lit "c" |} ].

Definition sample_services (failure : exn) (transcript : list str)
    : services nat unit :=
  {| isalnum := ascii_isalnum;
     format_timestamp := fun _ => [];
     video_get_pages := fun bvid w =>
       if bool_decide (bvid = lit "BV0") then (Raise OtherException, w)
       else (Ok (sample_pages bvid), w);
     video_get_cid := fun _ _ w =>
       match w with O => (Ok 7, O) | S w' => (Raise failure, w') end;
     video_get_subtitle := fun _ _ w => (Ok (Some [lit "//host/sub.json"]), w);
     http_get_json_body := fun _ w => (Ok transcript, w);
     download_audio := fun _ _ w => (Ok tt, w);
     whisper_transcribe := fun _ _ _ _ w => (Ok [], w);
     acompletion := fun _ _ w =>
       (Ok (ModelResponse (Some [Choices (Message (Some (lit "summary")))])), w);
     series_get_videos := fun _ w => (Ok [lit "BV1"; lit "BV0"; lit "BV2"], w) |}.

Definition sample_state (failures : nat) : state nat :=
  {| files := {[ lit "prompt/p.md" := (lit "Summarize.", 0%Q) ]};
     dirs := ∅; clock := 100%Q;
     stat_denied := ∅; remove_denied := ∅; world := failures |}.

Definition sample_args : arguments :=
  {| arg_bvid := lit "BV1"; arg_season_id := None; arg_start_page := 1;
     arg_end_page := None; arg_prompt := lit "p"; arg_output_dir := lit "result";
     arg_device := lit "cpu"; arg_model_size := lit "small" |}.

Definition sample_video : video := Video (lit "BV1").
Definition sample_page : page_details := {| page := 2; part := lit "Ep:1 / Intro?" |}.

(** A state whose cache holds an entry for page 2 of the sample video, in
    a world where the platform would fail. *)
Definition cached_state : state nat :=
  {| files := {[ lit ".cache/subtitles/BV1_2.txt" := (lit "   ", 7%Q) ]};
     dirs := {[ CACHE_DIR ]}; clock := 100%Q;
     stat_denied := ∅; remove_denied := ∅; world := 5%nat |}.


(** A platform without official subtitles: the transcript comes from the
    audio, whose speech segments are given, and the completion service
    gives a given answer; the series listing times out. *)
Definition audio_services (segments : list segment) (answer : outcome response)
    : services nat unit :=
  {| isalnum := ascii_isalnum;
     format_timestamp := fun _ => lit "00:00:00,000";
     video_get_pages := fun bvid w => (Ok (sample_pages bvid), w);
     video_get_cid := fun _ _ w => (Ok 7, w);
     video_get_subtitle := fun _ _ w => (Ok None, w);
     http_get_json_body := fun _ w => (Raise ClientError, w);
     download_audio := fun _ _ w => (Ok tt, w);
     whisper_transcribe := fun _ _ _ _ w => (Ok segments, w);
     acompletion := fun _ _ w => (answer, w);
     series_get_videos := fun _ w => (Raise TimeoutError, w) |}.

(** Speech, then silence. *)
Definition speech : list segment :=
  [ {| seg_start := 0%Q; seg_end := 2%Q; seg_text := lit " hello " |};
    {| seg_start := 2%Q; seg_end := 3%Q; seg_text := lit "  " |} ].

(** The sample arguments with another video and a page range. *)
Definition ranged_args : arguments :=
  {| arg_bvid := lit "BV2"; arg_season_id := Some 42; arg_start_page := 2;
     arg_end_page := Some 2; arg_prompt := lit "p"; arg_output_dir := lit "result";
     arg_device := lit "cpu"; arg_model_size := lit "small" |}.

(** ** The program *)

Section Pipeline.

Context {W audio : Type} (svc : services W audio).

Implicit Types (st : state W) (evs : list event).

(** [main.cleanup_cache]: one iteration of the loop over the listing. *)
Definition cleanup_cache_step (directory : path) (cutoff_time : Q)
    (cleaned_count : Z) (filename : str) : M W Z :=
  let file_path := os_path_join directory filename in
  is_file ← os_path_isfile file_path;
  if is_file : bool then
    try_except
      (mtime ← os_path_getmtime file_path;
       if Qlt_le_dec mtime cutoff_time then
         os_remove file_path;;
         ret (cleaned_count + 1)
       else ret cleaned_count)
      (fun e =>
         if is_os_error e then
           logging ERROR (MsgCleanupError file_path e);;
           ret cleaned_count
         else raise e)
  else ret cleaned_count.

(** [main.cleanup_cache]. *)
Definition cleanup_cache (directory : path) (max_age_days : Z) : M W unit :=
  present ← os_path_exists directory;
  if negb present then ret tt
  else
    logging INFO (MsgCleaning directory max_age_days);;
    now ← time_time;
    let cutoff_time := (now - inject_Z (max_age_days * 24 * 60 * 60))%Q in
    listing ← os_listdir directory;
    cleaned_count ← for_fold listing 0 (cleanup_cache_step directory cutoff_time);
    if 0 <? cleaned_count then logging INFO (MsgRemoved cleaned_count)
    else logging INFO MsgNoOutdated.

(** [main.save]. *)
Definition save (page_number : Z) (filename content : str) (output_dir : path)
    : M W path :=
  let safe_filename :=
    rstrip (filter (fun c => isalnum svc c || bool_decide (c ∈ [32; 46; 95; 45]%N)) filename) in
  os_makedirs output_dir;;
  let file_path :=
    os_path_join output_dir
      (lit "P" ++ format_03d page_number ++ lit "_" ++ safe_filename ++ lit ".md") in
  write_text file_path content;;
  logging INFO (MsgSaved file_path);;
  ret file_path.

(** [generate_subtitles.generate_subtitles]; the progress bar and the
    prints are not modelled. *)
Definition generate_subtitles (audio_file : audio) (type : subtitle_type)
    (model_size device : str) : M W str :=
  let compute_type := if contains (lit "cuda") device then lit "int8" else lit "float32" in
  segments ← await (CallTranscribe model_size device)
               (whisper_transcribe svc audio_file model_size device compute_type);
  let results :=
    map (fun sg =>
           match type with
           | Text => strip (seg_text sg)
           | Timestamped =>
               format_timestamp svc (seg_start sg) ++ lit " --> "
               ++ format_timestamp svc (seg_end sg) ++ [10%N]
               ++ strip (seg_text sg) ++ [10%N]
           end) segments in
  ret (join [10%N] results).

(** [summarize.summarize]. *)
Definition summarize (content prompt : str) : M W (option str) :=
  let user_content := summarize_instruction ++ content in
  response ← await (CallCompletion prompt user_content)
               (acompletion svc prompt user_content);
  ret (match response with
       | ModelResponse (Some (first_choice :: _)) =>
           match first_choice with
           | Choices (Message (Some result_str)) => Some result_str
           | _ => None
           end
       | _ => None
       end).

(** [read_prompt.read_prompt]. *)
Definition read_prompt (filename : str) : M W str :=
  try_except (read_text (lit "prompt/" ++ filename ++ lit ".md"))
    (fun e =>
       match e with
       | FileNotFoundError => raise FileNotFoundError
       | _ => raise OtherException
       end).

(** [main.get_subtitle]. *)
Definition get_subtitle (v : video) (page_number : Z) (device model_size bvid : str)
    : M W (option str) :=
  let cache_key := bvid ++ lit "_" ++ str_of_int page_number in
  let cache_file_path := os_path_join CACHE_DIR (cache_key ++ lit ".txt") in
  cached ← os_path_exists cache_file_path;
  if cached : bool then
    logging INFO (MsgCacheLoad page_number);;
    text ← read_text cache_file_path;
    ret (Some text)
  else
    logging INFO (MsgCacheMiss page_number);;
    cid ← await (CallGetCid (video_bvid v) (page_number - 1))
            (video_get_cid svc (video_bvid v) (page_number - 1));
    subtitle_data ← await (CallGetSubtitle (video_bvid v) cid)
                      (video_get_subtitle svc (video_bvid v) cid);
    subtitle_text ←
      match subtitle_data with
      | Some (subtitle_url :: _) =>
          logging INFO (MsgOfficialFound page_number);;
          let url := lit "https:" ++ subtitle_url in
          body ← await (CallHttpGet url) (http_get_json_body svc url);
          ret (Some (join [10%N] body))
      | _ =>
          logging INFO (MsgGenerating page_number);;
          audio_file ← await (CallDownloadAudio (video_bvid v) page_number)
                         (download_audio svc (video_bvid v) page_number);
          text ← generate_subtitles audio_file Text model_size device;
          ret (Some text)
      end;
    match subtitle_text with
    | Some text =>
        if truthy text && truthy (strip text) then
          logging INFO (MsgCacheSave page_number);;
          write_text cache_file_path text
        else ret tt
    | None => ret tt
    end;;
    ret subtitle_text.

(** How one pass through the body of the retry loop ends. *)
Inductive loop_exit := Returned | Continue | Break.

(** [main.process_page]: the [try] block of one attempt. *)
Definition process_page_attempt (v : video) (page_number _save_page_number : Z)
    (title prompt_text bvid : str) (args : arguments) : M W unit :=
  logging INFO (MsgProcessing _save_page_number title);;
  subtitle_text ← get_subtitle v page_number (arg_device args) (arg_model_size args) bvid;
  match subtitle_text with
  | Some text =>
      if truthy text && truthy (strip text) then
        summary ← summarize text prompt_text;
        match summary with
        | Some s =>
            if truthy s then
              save _save_page_number title s (arg_output_dir args);;
              ret tt
            else logging ERROR (MsgSummaryFailed _save_page_number)
        | None => logging ERROR (MsgSummaryFailed _save_page_number)
        end
      else logging WARNING (MsgEmptySubtitle _save_page_number)
  | None => logging WARNING (MsgEmptySubtitle _save_page_number)
  end.

(** [main.process_page]: the loop [for attempt in range(max_retries)]. *)
Fixpoint process_page_loop (attempts : list nat) (max_retries : nat)
    (v : video) (page_number _save_page_number : Z)
    (title prompt_text bvid : str) (args : arguments) : M W unit :=
  match attempts with
  | [] => ret tt
  | attempt :: rest =>
      exit ← try_except
        (process_page_attempt v page_number _save_page_number title prompt_text bvid args;;
         ret Returned)
        (fun e =>
           if is_network_error e then
             logging WARNING
               (MsgNetworkError _save_page_number (Z.of_nat attempt + 1)
                  (Z.of_nat max_retries) e);;
             (if Z.of_nat attempt + 1 =? Z.of_nat max_retries then
                logging ERROR (MsgRetriesExhausted _save_page_number (Z.of_nat max_retries))
              else asyncio_sleep (5 * (Z.of_nat attempt + 1)));;
             ret Continue
           else
             logging_exc (MsgUnexpected _save_page_number e);;
             ret Break);
      match exit with
      | Continue =>
          process_page_loop rest max_retries v page_number _save_page_number
            title prompt_text bvid args
      | Returned | Break => ret tt
      end
  end.

(** [main.process_page]. *)
Definition process_page (v : video) (page_details : page_details) (prompt_text bvid : str)
    (args : arguments) (save_page_number : option Z) : M W unit :=
  let page_number := page page_details in
  let title := part page_details in
  let max_retries := 3%nat in
  let _save_page_number :=
    match save_page_number with Some n => n | None => page_number end in
  process_page_loop (seq 0 max_retries) max_retries v page_number _save_page_number
    title prompt_text bvid args.

(** [main.process_bvid]: the body of the loop over the pages. *)
Definition process_bvid_step (args : arguments) (v : video) (prompt_text : str)
    (pg : page_details) : M W unit :=
  let title := part pg in
  let page_number := page pg in
  let safe_filename :=
    rstrip (filter (fun c => isalnum svc c || bool_decide (c ∈ [32; 46; 95; 45]%N)) title) in
  let output_path :=
    os_path_join (arg_output_dir args)
      (lit "P" ++ format_03d page_number ++ lit "_" ++ safe_filename ++ lit ".md") in
  done ← os_path_exists output_path;
  if done : bool then logging INFO (MsgSkipping page_number title)
  else process_page v pg prompt_text (arg_bvid args) args None.

(** [main.process_bvid]. *)
Definition process_bvid (args : arguments) : M W unit :=
  let v := Video (arg_bvid args) in
  prompt_text ← read_prompt (arg_prompt args);
  fetched ← try_except
    (all_pages ← await (CallGetPages (video_bvid v)) (video_get_pages svc (video_bvid v));
     logging INFO (MsgFoundPages (Z.of_nat (length all_pages)) (arg_bvid args));;
     ret (Some all_pages))
    (fun e =>
       logging ERROR (MsgPagesFailed (arg_bvid args) e);;
       ret None);
  match fetched with
  | None => ret tt
  | Some all_pages =>
      let pages_to_process :=
        filter (fun p =>
                  (arg_start_page args <=? page p)
                  && match arg_end_page args with
                     | None => true
                     | Some end_page => page p <=? end_page
                     end) all_pages in
      for_each pages_to_process (process_bvid_step args v prompt_text)
  end.

(** [main.process_season]: the body of the loop over the pages of one
    video; the carried variable is [global_page_counter]. *)
Definition process_season_step (args : arguments) (v : video) (prompt_text bvid : str)
    (global_page_counter : Z) (pg : page_details) : M W Z :=
  let title := part pg in
  let safe_filename :=
    rstrip (filter (fun c => isalnum svc c || bool_decide (c ∈ [32; 46; 95; 45]%N)) title) in
  let output_path :=
    os_path_join (arg_output_dir args)
      (lit "P" ++ format_03d global_page_counter ++ lit "_" ++ safe_filename ++ lit ".md") in
  done ← os_path_exists output_path;
  if done : bool then
    logging INFO (MsgSkipping global_page_counter title);;
    ret (global_page_counter + 1)
  else
    process_page v pg prompt_text bvid args (Some global_page_counter);;
    ret (global_page_counter + 1).

(** [main.process_season]: the body of the loop over the videos. *)
Definition process_season_video (args : arguments) (global_page_counter : Z)
    (bvid : str) : M W Z :=
  let v := Video bvid in
  prompt_text ← read_prompt (arg_prompt args);
  fetched ← try_except
    (all_pages ← await (CallGetPages (video_bvid v)) (video_get_pages svc (video_bvid v));
     ret (Some all_pages))
    (fun e =>
       logging ERROR (MsgSeasonPagesFailed bvid e);;
       ret None);
  match fetched with
  | None => ret global_page_counter
  | Some all_pages =>
      for_fold all_pages global_page_counter
        (process_season_step args v prompt_text bvid)
  end.

(** [main.process_season]; [season_id] is [args.season_id]. *)
Definition process_season (args : arguments) (season_id : Z) : M W unit :=
  archives ← await (CallGetVideos season_id) (series_get_videos svc season_id);
  logging INFO (MsgFoundVideos (Z.of_nat (length archives)) season_id);;
  let global_page_counter := 1 in
  for_fold archives global_page_counter (process_season_video args);;
  ret tt.

(** [main.main] after the arguments are parsed; the credentials are not
    modelled. *)
Definition main (args : arguments) : M W unit :=
  os_makedirs CACHE_DIR;;
  cleanup_cache CACHE_DIR CACHE_MAX_AGE_DAYS;;
  match arg_season_id args with
  | Some season_id =>
      if season_id =? 0 then process_bvid args
      else process_season args season_id
  | None => process_bvid args
  end.

(** ** Vocabulary of the properties *)

(** The characters the Output Writer keeps: alphanumerics, space, dot,
    underscore and hyphen. *)
Definition allowed_in_filename (c : char) : bool :=
  (isalnum svc c || (c =? 32) || (c =? 46) || (c =? 95) || (c =? 45))%N.

(** The path of the output record of a save number and a title. *)
Definition output_record (args : arguments) (save_number : Z) (title : str) : path :=
  os_path_join (arg_output_dir args)
    (lit "P" ++ format_03d save_number ++ lit "_"
     ++ rstrip (filter (fun c => allowed_in_filename c) title) ++ lit ".md").

(** The path of the cache entry of a video and a page. *)
Definition cache_entry (bvid : str) (page_number : Z) : path :=
  os_path_join CACHE_DIR ((bvid ++ lit "_" ++ str_of_int page_number) ++ lit ".txt").

(** A transcript that is absent, empty, or whitespace only. *)
Definition blank (t : option str) : Prop :=
  match t with Some s => strip s = [] | None => True end.

(** [main.process_page]: the rest of an attempt once the transcript is
    resolved. *)
Definition after_resolution (sn : Z) (title prompt_text : str) (args : arguments)
    (subtitle_text : option str) : M W unit :=
  match subtitle_text with
  | Some text =>
      if truthy text && truthy (strip text) then
        summary ← summarize text prompt_text;
        match summary with
        | Some s =>
            if truthy s then
              save sn title s (arg_output_dir args);;
              ret tt
            else logging ERROR (MsgSummaryFailed sn)
        | None => logging ERROR (MsgSummaryFailed sn)
        end
      else logging WARNING (MsgEmptySubtitle sn)
  | None => logging WARNING (MsgEmptySubtitle sn)
  end.

(** The save number the Page Processor uses. *)
Definition save_number_of (pg : page_details) (save_page_number : option Z) : Z :=
  match save_page_number with Some n => n | None => page pg end.

(** The state after [asyncio.sleep(seconds)]. *)
Definition slept (seconds : Z) st : state W :=
  set_clock (clock st + inject_Z seconds)%Q st.

(** What the Page Processor logs when an attempt ends with exception [e]. *)
Definition failure_report (sn attempt : Z) (e : exn) : list event :=
  if is_network_error e then
    [EvLog WARNING (MsgNetworkError sn attempt 3 e) false;
     EvLog ERROR (MsgRetriesExhausted sn 3) false]
  else [EvLog ERROR (MsgUnexpected sn e) true].

(** A run from [st] to [st'] with events [evs] is careful when every file
    of [st] is in [st'] as it was, nothing was removed, every write went to
    a path that did not exist in [st] and its content is still there in
    [st'], and every attempt started was for an output record that did not
    exist in [st]. *)
Record careful (args : arguments) st st' evs : Prop := {
  careful_keeps : ∀ p x, files st !! p = Some x → files st' !! p = Some x;
  careful_dirs : dirs st ⊆ dirs st';
  careful_removed : removed evs = [];
  careful_fresh : Forall (fun pc => path_exists st pc.1 = false) (written evs);
  careful_kept : Forall (fun pc => ∃ t, files st' !! pc.1 = Some (pc.2, t)) (written evs);
  careful_started :
    Forall (fun nt => path_exists st (output_record args nt.1 nt.2) = false) (started evs)
}.

(** Season mode as the specification words it: a page that has been given
    its save number is skipped when its output record exists and handed to
    the Page Processor otherwise. *)
Definition dispatch_numbered (args : arguments) (v : video) (prompt bvid : str)
    (numbered_page : Z * page_details) : M W unit :=
  let save_number := numbered_page.1 in
  let pg := numbered_page.2 in
  done ← os_path_exists (output_record args save_number (part pg));
  if done : bool then logging INFO (MsgSkipping save_number (part pg))
  else process_page v pg prompt bvid args (Some save_number).

(** The pages of one video with the save numbers [first], [first + 1], ...
    in page order. *)
Definition numbered_from (first : Z) (pages : list page_details)
    : list (Z * page_details) :=
  zip (seqZ first (Z.of_nat (length pages))) pages.

(** A file the eviction removes: older than the cutoff, and the operating
    system lets the program read its modification time and remove it. *)
Definition evictable st (cutoff_time : Q) (p : path) : Prop :=
  ∃ c mtime, files st !! p = Some (c, mtime) ∧ (mtime < cutoff_time)%Q
             ∧ (p ∉ stat_denied st) ∧ (p ∉ remove_denied st).

(** A file on which the eviction fails: its modification time cannot be
    read, or it is older than the cutoff and cannot be removed. *)
Definition eviction_fails st (cutoff_time : Q) (p : path) : Prop :=
  ∃ c mtime, files st !! p = Some (c, mtime)
             ∧ ((p ∈ stat_denied st)
                ∨ ((mtime < cutoff_time)%Q ∧ (p ∈ remove_denied st))).

(** The paths directly under a directory. *)
Definition in_directory (directory p : path) : Prop :=
  ∃ name, name ≠ [] ∧ (47%N ∉ name) ∧ p = os_path_join directory name.

(** [main.main] after the startup eviction. *)
Definition orchestrate (args : arguments) : M W unit :=
  match arg_season_id args with
  | Some season_id =>
      if season_id =? 0 then process_bvid args
      else process_season args season_id
  | None => process_bvid args
  end.

(** The prompt file [read_prompt.read_prompt] opens. *)
Definition prompt_file (filename : str) : path :=
  lit "prompt/" ++ filename ++ lit ".md".

(** The file name the Output Writer makes of a title. *)
Definition safe_filename (title : str) : str :=
  rstrip (filter (fun c => allowed_in_filename c) title).

(** The number a string of decimal digits stands for. *)
Definition digits_value (s : str) : N :=
  fold_left (fun acc c => (10 * acc + (c - 48))%N) s 0%N.



(** The pages the single-video orchestrator keeps: those of the range
    [start_page .. end_page]. *)
Definition pages_to_process (args : arguments) (all_pages : list page_details)
    : list page_details :=
  filter (fun p =>
            (arg_start_page args <=? page p)
            && match arg_end_page args with
               | None => true
               | Some end_page => page p <=? end_page
               end) all_pages.

Create Rewrite HintDb events.

(** Pushes the readings of an event sequence ([written], [removed],
    [sleeps], [calls], [attempts_made]) through its structure. *)
Ltac events_norm :=
  autorewrite with events;
  change (written []) with (@nil (path * str));
  change (removed []) with (@nil path);
  change (sleeps []) with (@nil Z);
  change (calls []) with (@nil service_call);
  change (attempts_made []) with 0%nat;
  cbn [is_attempt_start app].

(** ** Facts about strings and paths *)

Lemma dropwhile_split {A} (p : A -> bool) (l : list A) :
  ∃ dropped, l = dropped ++ dropwhile p l ∧ Forall (fun x => p x = true) dropped.
Proof.
  induction l as [|x l IH]; simpl.
  - exists []. split; [done | constructor].
  - destruct (p x) eqn:Hx.
    + destruct IH as (d & Hl & Hd). exists (x :: d). split.
      * simpl. by rewrite <- Hl.
      * by constructor.
    + exists []. split; [done | constructor].
Qed.

Lemma dropwhile_head {A} (p : A -> bool) (l : list A) (x : A) (r : list A) :
  dropwhile p l = x :: r → p x = false.
Proof.
  induction l as [|y l IH]; simpl; [done |].
  destruct (p y) eqn:Hy; [done |]. intros [= <- _]. done.
Qed.

Lemma rstrip_split (s : str) :
  ∃ blanks, s = rstrip s ++ blanks ∧ Forall (fun c => isspace c = true) blanks.
Proof.
  unfold rstrip. destruct (dropwhile_split isspace (rev s)) as (d & Hs & Hd).
  exists (rev d). split.
  - rewrite <- rev_app_distr, <- Hs. by rewrite rev_involutive.
  - apply Forall_forall. intros c Hc. rewrite Forall_forall in Hd.
    apply Hd. apply list_elem_of_In. apply in_rev. by apply list_elem_of_In.
Qed.


Lemma truthy_strip (s : str) : truthy s && truthy (strip s) = truthy (strip s).
Proof. destruct s; [reflexivity | done]. Qed.

Lemma startswith_cons (c d : char) (s : str) :
  c ≠ d → startswith [c] (d :: s) = false.
Proof.
  intros Hne. unfold startswith. apply bool_decide_eq_false.
  intros [k Hk]. simpl in Hk. congruence.
Qed.

(** The joined path always ends with the joined name. *)
Lemma os_path_join_suffix (a b : path) : ∃ pre, os_path_join a b = pre ++ b.
Proof.
  unfold os_path_join. destruct (startswith _ b).
  - by exists [].
  - destruct (_ || _).
    + by exists a.
    + exists (a ++ lit "/"). by rewrite <- app_assoc.
Qed.


(** ** Running a computation *)

Lemma bind_run {A B} (m : M W A) (k : A -> M W B) st :
  (m ≫= k) st =
  match m st with
  | (Ok a, st1, ev1) =>
      match k a st1 with (r, st2, ev2) => (r, st2, ev1 ++ ev2) end
  | (Raise e, st1, ev1) => (Raise e, st1, ev1)
  end.
Proof. reflexivity. Qed.

Lemma filter_allowed (title : str) :
  filter (fun c => isalnum svc c || bool_decide (c ∈ [32; 46; 95; 45]%N)) title
  = filter (fun c => allowed_in_filename c) title.
Proof.
  apply list_filter_iff. intros c. unfold allowed_in_filename.
  rewrite !orb_True, bool_decide_spec, !elem_of_cons, elem_of_nil.
  rewrite !Is_true_true, !N.eqb_eq. tauto.
Qed.


Lemma save_run (args : arguments) (n : Z) (title content : str) st :
  save n title content (arg_output_dir args) st
  = (Ok (output_record args n title),
     set_files (<[output_record args n title := (content, clock st)]> (files st))
       (set_dirs ({[arg_output_dir args]} ∪ dirs st) st),
     [EvMkdir (arg_output_dir args); EvWrite (output_record args n title) content;
      EvLog INFO (MsgSaved (output_record args n title)) false]).
Proof. unfold save, output_record. rewrite filter_allowed. reflexivity. Qed.

Lemma process_bvid_step_run (args : arguments) (v : video) (prompt_text : str)
    (pg : page_details) st :
  process_bvid_step args v prompt_text pg st
  = if path_exists st (output_record args (page pg) (part pg))
    then (Ok tt, st, [EvLog INFO (MsgSkipping (page pg) (part pg)) false])
    else process_page v pg prompt_text (arg_bvid args) args None st.
Proof.
  unfold process_bvid_step, output_record. rewrite filter_allowed.
  rewrite bind_run. unfold os_path_exists.
  destruct (path_exists st _); [reflexivity |].
  by destruct (process_page _ _ _ _ _ _ _) as [[r s] e].
Qed.

Lemma process_season_step_run (args : arguments) (v : video) (prompt_text bvid : str)
    (counter : Z) (pg : page_details) st :
  process_season_step args v prompt_text bvid counter pg st
  = if path_exists st (output_record args counter (part pg))
    then (Ok (counter + 1), st, [EvLog INFO (MsgSkipping counter (part pg)) false])
    else (process_page v pg prompt_text bvid args (Some counter);;
          ret (counter + 1)) st.
Proof.
  unfold process_season_step, output_record. rewrite filter_allowed.
  rewrite bind_run. unfold os_path_exists.
  destruct (path_exists st _); [reflexivity |].
  match goal with |- (let (_, _) := ?x in _) = _ => by destruct x as [[r s] e] end.
Qed.

Lemma truthy_true (s : str) : truthy s = true → s ≠ [].
Proof. by destruct s. Qed.

Lemma truthy_false (s : str) : truthy s = false → s = [].
Proof. by destruct s. Qed.

Lemma nonblank_true (s : str) : truthy s && truthy (strip s) = true → strip s ≠ [].
Proof. rewrite truthy_strip. apply truthy_true. Qed.

Lemma nonblank_false (s : str) : truthy s && truthy (strip s) = false → strip s = [].
Proof. rewrite truthy_strip. apply truthy_false. Qed.

(** What one call of the Subtitle Resolver does. *)
Lemma get_subtitle_effect (v : video) (n : Z) (dev ms bvid : str) st r st' evs :
  get_subtitle v n dev ms bvid st = (r, st', evs) →
  dirs st' = dirs st ∧ clock st' = clock st
  ∧ stat_denied st' = stat_denied st ∧ remove_denied st' = remove_denied st
  ∧ removed evs = [] ∧ attempts_made evs = 0%nat ∧ sleeps evs = []
  ∧ Forall (fun c => is_completion_call c = false) (calls evs)
  ∧ if path_exists st (cache_entry bvid n)
    then st' = st ∧ evs = [EvLog INFO (MsgCacheLoad n) false]
         ∧ ∀ c t, files st !! cache_entry bvid n = Some (c, t) → r = Ok (Some c)
    else (∃ text, r = Ok (Some text) ∧ strip text ≠ []
            ∧ files st' = <[cache_entry bvid n := (text, clock st)]> (files st)
            ∧ written evs = [(cache_entry bvid n, text)])
         ∨ ((∀ t, r = Ok t → blank t) ∧ files st' = files st ∧ written evs = []).
Proof.
  unfold get_subtitle, generate_subtitles. fold (cache_entry bvid n).
  unfold mbind, M_bind, bind, os_path_exists, logging, read_text, await, write_text, ret.
  intros H.
  destruct (path_exists st (cache_entry bvid n)) eqn:Hex.
  - repeat case_match; simplify_eq; simpl;
      (split_and!; try done; try by repeat constructor); intros; simplify_eq; done.
  - repeat case_match; simplify_eq; simpl.
    all: split_and!; try done; try by repeat constructor.
    all: try (right; split_and!; try done; intros; simplify_eq; simpl;
              eauto using nonblank_false; fail).
    all: left; eexists; split_and!; try done; eauto using nonblank_true.
Qed.

Lemma summarize_effect (content prompt : str) st r st' evs :
  summarize content prompt st = (r, st', evs) →
  files st' = files st ∧ dirs st' = dirs st ∧ clock st' = clock st
  ∧ stat_denied st' = stat_denied st ∧ remove_denied st' = remove_denied st
  ∧ evs = [EvCall (CallCompletion prompt (summarize_instruction ++ content))].
Proof.
  unfold summarize, mbind, M_bind, bind, await, ret. intros H.
  repeat case_match; simplify_eq; done.
Qed.

(** An output record is never a cache entry: the names end differently. *)
Lemma output_record_not_cache_entry (args : arguments) (sn : Z) (title bvid : str) (n : Z) :
  output_record args sn title ≠ cache_entry bvid n.
Proof.
  unfold output_record, cache_entry. intros Heq.
  destruct (os_path_join_suffix (arg_output_dir args)
              (lit "P" ++ format_03d sn ++ lit "_"
               ++ rstrip (filter (fun c => allowed_in_filename c) title) ++ lit ".md"))
    as [p1 H1].
  destruct (os_path_join_suffix CACHE_DIR ((bvid ++ lit "_" ++ str_of_int n) ++ lit ".txt"))
    as [p2 H2].
  rewrite H1, H2 in Heq. apply (f_equal last) in Heq.
  change (lit ".md") with ([46; 109]%N ++ [100%N]) in Heq.
  change (lit ".txt") with ([46; 116; 120]%N ++ [116%N]) in Heq.
  rewrite !app_assoc, !last_snoc in Heq. discriminate.
Qed.

Lemma written_app (a b : list event) : written (a ++ b) = written a ++ written b.
Proof. apply omap_app. Qed.

Lemma removed_app (a b : list event) : removed (a ++ b) = removed a ++ removed b.
Proof. apply omap_app. Qed.

Lemma sleeps_app (a b : list event) : sleeps (a ++ b) = sleeps a ++ sleeps b.
Proof. apply omap_app. Qed.

Lemma calls_app (a b : list event) : calls (a ++ b) = calls a ++ calls b.
Proof. apply omap_app. Qed.

Lemma attempts_made_app (a b : list event) :
  attempts_made (a ++ b) = (attempts_made a + attempts_made b)%nat.
Proof. unfold attempts_made. by rewrite filter_app, length_app. Qed.

Lemma written_cons (ev : event) (l : list event) :
  written (ev :: l)
  = match ev with EvWrite p c => (p, c) :: written l | _ => written l end.
Proof. by destruct ev. Qed.

Lemma removed_cons (ev : event) (l : list event) :
  removed (ev :: l)
  = match ev with EvRemove p => p :: removed l | _ => removed l end.
Proof. by destruct ev. Qed.

Lemma sleeps_cons (ev : event) (l : list event) :
  sleeps (ev :: l)
  = match ev with EvSleep s => s :: sleeps l | _ => sleeps l end.
Proof. by destruct ev. Qed.

Lemma calls_cons (ev : event) (l : list event) :
  calls (ev :: l)
  = match ev with EvCall c => c :: calls l | _ => calls l end.
Proof. by destruct ev. Qed.

Lemma attempts_made_cons (ev : event) (l : list event) :
  attempts_made (ev :: l)
  = ((if is_attempt_start ev then 1 else 0) + attempts_made l)%nat.
Proof.
  unfold attempts_made. rewrite filter_cons.
  destruct (is_attempt_start ev); by case_decide.
Qed.

#[local] Hint Rewrite written_cons removed_cons sleeps_cons calls_cons attempts_made_cons
  written_app removed_app sleeps_app calls_app attempts_made_app : events.

(** The writes of one call of the Subtitle Resolver. *)
Lemma get_subtitle_writes (v : video) (n : Z) (dev ms bvid : str) st r st' evs :
  get_subtitle v n dev ms bvid st = (r, st', evs) →
  (written evs = [] ∧ files st' = files st)
  ∨ ∃ t, written evs = [(cache_entry bvid n, t)]
         ∧ path_exists st (cache_entry bvid n) = false ∧ strip t ≠ []
         ∧ r = Ok (Some t)
         ∧ files st' = <[cache_entry bvid n := (t, clock st)]> (files st).
Proof.
  intros H. apply get_subtitle_effect in H.
  destruct H as (_ & _ & _ & _ & _ & _ & _ & _ & Hcase).
  destruct (path_exists st (cache_entry bvid n)).
  - destruct Hcase as (-> & -> & _). by left.
  - destruct Hcase as [(t & -> & Ht & Hf & Hw) | (_ & Hf & Hw)]; [right | by left].
    by exists t.
Qed.

Lemma process_page_attempt_unfold (v : video) (n sn : Z) (title prompt bvid : str)
    (args : arguments) :
  process_page_attempt v n sn title prompt bvid args
  = (logging INFO (MsgProcessing sn title);;
     subtitle_text ← get_subtitle v n (arg_device args) (arg_model_size args) bvid;
     after_resolution sn title prompt args subtitle_text).
Proof. reflexivity. Qed.

Lemma after_resolution_effect (sn : Z) (title prompt : str) (args : arguments)
    (t : option str) st r st' evs :
  after_resolution sn title prompt args t st = (r, st', evs) →
  clock st' = clock st
  ∧ stat_denied st' = stat_denied st ∧ remove_denied st' = remove_denied st
  ∧ removed evs = [] ∧ sleeps evs = [] ∧ attempts_made evs = 0%nat
  ∧ ((written evs = [] ∧ files st' = files st ∧ dirs st' = dirs st)
     ∨ ∃ s, written evs = [(output_record args sn title, s)] ∧ r = Ok tt
            ∧ dirs st' = {[arg_output_dir args]} ∪ dirs st
            ∧ files st' = <[output_record args sn title := (s, clock st)]> (files st)).
Proof.
  unfold after_resolution. intros H.
  destruct t as [text|]; [destruct (truthy text && truthy (strip text)) |].
  2,3: unfold logging in H; simplify_eq; split_and!; try done; by left.
  rewrite bind_run in H.
  destruct (summarize text prompt st) as [[rs ss] es] eqn:Hs.
  apply summarize_effect in Hs. destruct Hs as (Hf & Hd & Hc & Hsd & Hrd & ->).
  destruct rs as [[s|]|e].
  - destruct (truthy s).
    + rewrite bind_run, save_run in H. unfold ret in H. simplify_eq. simpl.
      rewrite Hf, Hd, Hc, Hsd, Hrd. split_and!; try done. right. by exists s.
    + unfold logging in H. simplify_eq. simpl. split_and!; try done. by left.
  - unfold logging in H. simplify_eq. simpl. split_and!; try done. by left.
  - simplify_eq. simpl. split_and!; try done. by left.
Qed.

(** What one attempt of the Page Processor does: it starts once, never
    removes or sleeps, writes at most the cache entry (only when there was
    none) and then at most the output record (only when it ends normally),
    and leaves every other file alone. *)
Lemma process_page_attempt_effect (v : video) (n sn : Z) (title prompt bvid : str)
    (args : arguments) st r st' evs :
  process_page_attempt v n sn title prompt bvid args st = (r, st', evs) →
  clock st' = clock st
  ∧ stat_denied st' = stat_denied st ∧ remove_denied st' = remove_denied st
  ∧ removed evs = [] ∧ sleeps evs = [] ∧ attempts_made evs = 1%nat
  ∧ ∃ cw ow, written evs = cw ++ ow
      ∧ (cw = [] ∨ ∃ t, cw = [(cache_entry bvid n, t)]
                     ∧ path_exists st (cache_entry bvid n) = false ∧ strip t ≠ [])
      ∧ (ow = [] ∧ dirs st' = dirs st
         ∨ ∃ s, ow = [(output_record args sn title, s)] ∧ r = Ok tt
                ∧ dirs st' = {[arg_output_dir args]} ∪ dirs st)
      ∧ ∀ q, q ∉ (cw ++ ow).*1 → files st' !! q = files st !! q.
Proof.
  rewrite process_page_attempt_unfold, bind_run. unfold logging at 1.
  rewrite bind_run.
  destruct (get_subtitle v n _ _ bvid st) as [[rg sg] eg] eqn:Hg.
  pose proof (get_subtitle_writes _ _ _ _ _ _ _ _ _ Hg) as Hw.
  apply get_subtitle_effect in Hg.
  destruct Hg as (Hd & Hc & Hsd & Hrd & Hrem & Hatt & Hsl & _).
  destruct rg as [t|e].
  - destruct (after_resolution sn title prompt args t sg) as [[ra sa] ea] eqn:Ha.
    apply after_resolution_effect in Ha.
    destruct Ha as (Hc' & Hsd' & Hrd' & Hrem' & Hsl' & Hatt' & Hw').
    intros [= <- <- <-]. events_norm.
    rewrite Hrem, Hrem', Hsl, Hsl', Hatt, Hatt'.
    split_and!; try congruence; try done.
    exists (written eg), (written ea). split; [done |].
    destruct Hw as [[Hwe Hfe] | (t' & Hwe & Hmiss & Hnb & _ & Hfe)];
      destruct Hw' as [(Hwa & Hfa & Hda) | (s & Hwa & Hra & Hda & Hfa)];
      rewrite Hwe, Hwa; split_and!; eauto 8;
      try (left; split; [done | by rewrite Hda]);
      try (right; exists s; split_and!; [done | done | by rewrite Hda, Hd]).
    + intros q _. congruence.
    + intros q Hq. rewrite Hfa, Hfe. apply lookup_insert_ne.
      intros <-. apply Hq. simpl. left.
    + intros q Hq. rewrite Hfa, Hfe. apply lookup_insert_ne.
      intros <-. apply Hq. simpl. left.
    + intros q Hq. rewrite Hfa, Hfe, !lookup_insert_ne; [done | |];
        intros <-; apply Hq; simpl; [left | right; left].
  - intros [= <- <- <-]. events_norm.
    rewrite Hrem, Hsl, Hatt. split_and!; try done.
    exists (written eg), []. rewrite app_nil_r. split; [done |].
    destruct Hw as [[Hwe Hfe] | (t' & Hwe & Hmiss & Hnb & Hr & Hfe)]; [| done].
    rewrite Hwe. split_and!; eauto. intros q _. congruence.
Qed.

(** [main.process_page]: one pass through the retry loop. *)
Lemma process_page_loop_cons (attempt : nat) (rest : list nat) (max_retries : nat)
    (v : video) (n sn : Z) (title prompt bvid : str) (args : arguments) st :
  process_page_loop (attempt :: rest) max_retries v n sn title prompt bvid args st
  = match process_page_attempt v n sn title prompt bvid args st with
    | (Ok _, st1, ev1) => (Ok tt, st1, ev1)
    | (Raise e, st1, ev1) =>
        if is_network_error e then
          let warning :=
            EvLog WARNING
              (MsgNetworkError sn (Z.of_nat attempt + 1) (Z.of_nat max_retries) e) false in
          if Z.of_nat attempt + 1 =? Z.of_nat max_retries then
            match process_page_loop rest max_retries v n sn title prompt bvid args st1 with
            | (r, st2, ev2) =>
                (r, st2,
                 ev1 ++ [warning; EvLog ERROR (MsgRetriesExhausted sn (Z.of_nat max_retries)) false]
                 ++ ev2)
            end
          else
            match process_page_loop rest max_retries v n sn title prompt bvid args
                    (set_clock (clock st1 + inject_Z (5 * (Z.of_nat attempt + 1)))%Q st1) with
            | (r, st2, ev2) =>
                (r, st2, ev1 ++ [warning; EvSleep (5 * (Z.of_nat attempt + 1))] ++ ev2)
            end
        else (Ok tt, st1, ev1 ++ [EvLog ERROR (MsgUnexpected sn e) true])
    end.
Proof.
  cbn [process_page_loop]. rewrite bind_run. unfold try_except. rewrite bind_run.
  destruct (process_page_attempt v n sn title prompt bvid args st) as [[[[]|e] st1] ev1].
  - unfold ret. simpl. by rewrite ?app_nil_r.
  - destruct (is_network_error e).
    + rewrite !bind_run. unfold logging at 1.
      destruct (Z.of_nat attempt + 1 =? Z.of_nat max_retries).
      * unfold logging at 1, ret. simpl.
        destruct (process_page_loop _ _ _ _ _ _ _ _ _ _) as [[r st2] ev2].
        by rewrite <- app_assoc.
      * unfold asyncio_sleep, ret. simpl.
        destruct (process_page_loop _ _ _ _ _ _ _ _ _ _) as [[r st2] ev2].
        by rewrite <- app_assoc.
    + rewrite bind_run. unfold logging_exc, ret. simpl. by rewrite app_nil_r.
Qed.

Lemma process_page_unfold (v : video) (pg : page_details) (prompt bvid : str)
    (args : arguments) (sn : option Z) :
  process_page v pg prompt bvid args sn
  = process_page_loop [0; 1; 2]%nat 3 v (page pg) (save_number_of pg sn) (part pg)
      prompt bvid args.
Proof. reflexivity. Qed.

(** The retry loop never raises and starts at most one attempt per element
    of its range. *)
Lemma process_page_loop_total (attempts : list nat) (max_retries : nat)
    (v : video) (n sn : Z) (title prompt bvid : str) (args : arguments) st :
  ∃ st' evs,
    process_page_loop attempts max_retries v n sn title prompt bvid args st
    = (Ok tt, st', evs)
    ∧ (attempts_made evs <= length attempts)%nat.
Proof.
  revert st. induction attempts as [|attempt rest IH]; intros st.
  - eexists _, _. split; [reflexivity | by cbv].
  - rewrite process_page_loop_cons.
    destruct (process_page_attempt v n sn title prompt bvid args st)
      as [[[[]|e] st1] ev1] eqn:Ha;
      apply process_page_attempt_effect in Ha;
      destruct Ha as (_ & _ & _ & _ & _ & Hatt & _).
    + eexists _, _. split; [reflexivity | rewrite Hatt; simpl; lia].
    + destruct (is_network_error e); cbn zeta.
      * destruct (Z.of_nat attempt + 1 =? Z.of_nat max_retries).
        -- destruct (IH st1) as (st2 & ev2 & -> & Hle).
           eexists _, _. split; [reflexivity |]. events_norm. simpl. lia.
        -- destruct (IH (set_clock (clock st1 + inject_Z (5 * (Z.of_nat attempt + 1)))%Q st1))
             as (st2 & ev2 & -> & Hle).
           eexists _, _. split; [reflexivity |]. events_norm. simpl. lia.
      * eexists _, _. split; [reflexivity |]. events_norm. simpl. lia.
Qed.

(** C1. The Page Processor always returns normally and starts at most three
    attempts.  When an attempt fails with a network-class error (aiohttp
    client error or timeout) and attempts remain, it logs a warning and
    sleeps before the next attempt: 5 seconds after the first attempt, 10
    seconds after the second.  If the third attempt fails the same way it
    logs the warning and the error that the page is given up, sleeps no
    more, and returns. *)
Theorem process_page_retries_with_backoff (v : video) (pg : page_details)
    (prompt bvid : str) (args : arguments) (save_page_number : option Z) st :
  let sn := save_number_of pg save_page_number in
  let attempt := process_page_attempt v (page pg) sn (part pg) prompt bvid args in
  (∃ st' evs,
     process_page v pg prompt bvid args save_page_number st = (Ok tt, st', evs)
     ∧ (attempts_made evs <= 3)%nat)
  ∧ (∀ e1 s1 ev1 r2 s2 ev2,
       attempt st = (Raise e1, s1, ev1) → is_network_error e1 = true →
       attempt (slept 5 s1) = (r2, s2, ev2) →
       (∀ e2, r2 = Raise e2 → is_network_error e2 = false) →
       let evs :=
         ev1 ++ [EvLog WARNING (MsgNetworkError sn 1 3 e1) false; EvSleep 5]
         ++ ev2 ++ match r2 with
                   | Ok _ => []
                   | Raise e2 => [EvLog ERROR (MsgUnexpected sn e2) true]
                   end in
       process_page v pg prompt bvid args save_page_number st = (Ok tt, s2, evs)
       ∧ sleeps evs = [5] ∧ attempts_made evs = 2%nat)
  ∧ (∀ e1 s1 ev1 e2 s2 ev2 r3 s3 ev3,
       attempt st = (Raise e1, s1, ev1) → is_network_error e1 = true →
       attempt (slept 5 s1) = (Raise e2, s2, ev2) → is_network_error e2 = true →
       attempt (slept 10 s2) = (r3, s3, ev3) →
       let evs :=
         ev1 ++ [EvLog WARNING (MsgNetworkError sn 1 3 e1) false; EvSleep 5]
         ++ ev2 ++ [EvLog WARNING (MsgNetworkError sn 2 3 e2) false; EvSleep 10]
         ++ ev3 ++ match r3 with Ok _ => [] | Raise e3 => failure_report sn 3 e3 end in
       process_page v pg prompt bvid args save_page_number st = (Ok tt, s3, evs)
       ∧ sleeps evs = [5; 10] ∧ attempts_made evs = 3%nat).
Proof.
  intros sn attempt. split; [| split].
  - rewrite process_page_unfold. apply process_page_loop_total.
  - intros e1 s1 ev1 r2 s2 ev2 H1 N1 H2 N2. subst attempt. cbn zeta. split.
    + rewrite process_page_unfold. fold sn.
      rewrite process_page_loop_cons, H1, N1.
      change (Z.of_nat 0 + 1) with 1. change (Z.of_nat 3) with 3.
      change (1 =? 3) with false. change (5 * 1) with 5. cbv iota zeta.
      fold (slept 5 s1).
      rewrite process_page_loop_cons, H2.
      destruct r2 as [[]|e2]; [by rewrite app_nil_r |].
      by rewrite (N2 e2 eq_refl).
    + apply process_page_attempt_effect in H1, H2.
      destruct H1 as (_ & _ & _ & _ & Hs1 & Ha1 & _).
      destruct H2 as (_ & _ & _ & _ & Hs2 & Ha2 & _).
      events_norm. rewrite Hs1, Hs2, Ha1, Ha2.
      by destruct r2 as [[]|e2].
  - intros e1 s1 ev1 e2 s2 ev2 r3 s3 ev3 H1 N1 H2 N2 H3. subst attempt. cbn zeta.
    split.
    + rewrite process_page_unfold. fold sn.
      rewrite process_page_loop_cons, H1, N1.
      change (Z.of_nat 0 + 1) with 1. change (Z.of_nat 3) with 3.
      change (1 =? 3) with false. change (5 * 1) with 5. cbv iota zeta.
      fold (slept 5 s1).
      rewrite process_page_loop_cons, H2, N2.
      change (Z.of_nat 1 + 1) with 2. change (Z.of_nat 3) with 3.
      change (2 =? 3) with false. change (5 * 2) with 10. cbv iota zeta.
      fold (slept 10 s2).
      rewrite process_page_loop_cons, H3.
      destruct r3 as [[]|e3]; [by rewrite app_nil_r |].
      unfold failure_report. destruct (is_network_error e3); [| done].
      change (Z.of_nat 2 + 1) with 3. change (Z.of_nat 3) with 3.
      change (3 =? 3) with true. cbn. by rewrite ?app_nil_r, <- ?app_assoc.
    + apply process_page_attempt_effect in H1, H2, H3.
      destruct H1 as (_ & _ & _ & _ & Hs1 & Ha1 & _).
      destruct H2 as (_ & _ & _ & _ & Hs2 & Ha2 & _).
      destruct H3 as (_ & _ & _ & _ & Hs3 & Ha3 & _).
      events_norm. rewrite Hs1, Hs2, Hs3, Ha1, Ha2, Ha3.
      destruct r3 as [[]|e3]; [done |].
      unfold failure_report. by destruct (is_network_error e3).
Qed.


(** C5. When the transcript the Subtitle Resolver returns is absent, empty
    or whitespace only, the attempt logs a warning and the Page Processor
    returns normally: the summarizer is not called, nothing is written (no
    output record, no cache entry), no exception is raised and no further
    attempt is made, at whichever element of the retry range this
    happens. *)
Theorem process_page_skips_blank_transcript (v : video) (pg : page_details)
    (prompt bvid : str) (args : arguments) (save_page_number : option Z)
    st t st1 ev1 :
  let sn := save_number_of pg save_page_number in
  (get_subtitle v (page pg) (arg_device args) (arg_model_size args) bvid st
    = (Ok t, st1, ev1)) →
  blank t →
  let evs :=
    [EvLog INFO (MsgProcessing sn (part pg)) false] ++ ev1
    ++ [EvLog WARNING (MsgEmptySubtitle sn) false] in
  process_page v pg prompt bvid args save_page_number st = (Ok tt, st1, evs)
  ∧ (∀ attempt rest max_retries,
       process_page_loop (attempt :: rest) max_retries v (page pg) sn (part pg)
         prompt bvid args st = (Ok tt, st1, evs))
  ∧ Forall (fun c => is_completion_call c = false) (calls evs)
  ∧ written evs = [] ∧ files st1 = files st
  ∧ attempts_made evs = 1%nat ∧ sleeps evs = [].
Proof.
  intros sn Hg Hb evs.
  assert (Hattempt :
    process_page_attempt v (page pg) sn (part pg) prompt bvid args st
    = (Ok tt, st1, evs)).
  { rewrite process_page_attempt_unfold, bind_run. unfold logging at 1.
    rewrite bind_run, Hg. unfold after_resolution.
    destruct t as [text|]; simpl in Hb.
    - rewrite truthy_strip, Hb. reflexivity.
    - reflexivity. }
  assert (Hloop : ∀ attempt rest max_retries,
    process_page_loop (attempt :: rest) max_retries v (page pg) sn (part pg)
      prompt bvid args st = (Ok tt, st1, evs)).
  { intros. by rewrite process_page_loop_cons, Hattempt. }
  split; [rewrite process_page_unfold; apply Hloop |].
  split; [exact Hloop |].
  pose proof (get_subtitle_writes _ _ _ _ _ _ _ _ _ Hg) as Hw.
  apply get_subtitle_effect in Hg.
  destruct Hg as (_ & _ & _ & _ & _ & Hatt & Hsl & Hcalls & _).
  assert (written ev1 = [] ∧ files st1 = files st) as [Hw1 Hf1].
  { destruct Hw as [? | (t' & _ & _ & Hnb & [= ->] & _)]; [done |].
    simpl in Hb. done. }
  subst evs. events_norm. rewrite Hatt, Hsl, Hw1, !app_nil_r.
  split_and!; try done.
Qed.

(** C4. When the Transcript Cache holds an entry for the video and page,
    the Subtitle Resolver returns the content of that entry as it is,
    whatever it is; it logs the cache hit and does nothing else: no
    collaborator is called (the world is the one before the call), and
    nothing is written. *)
Theorem get_subtitle_cache_hit (v : video) (page_number : Z) (device model_size bvid : str)
    st (content : str) (mtime : Q) :
  files st !! cache_entry bvid page_number = Some (content, mtime) →
  get_subtitle v page_number device model_size bvid st
  = (Ok (Some content), st, [EvLog INFO (MsgCacheLoad page_number) false])
  ∧ calls [EvLog INFO (MsgCacheLoad page_number) false] = [].
Proof.
  intros Hhit. split; [| reflexivity].
  destruct (get_subtitle v page_number device model_size bvid st)
    as [[r st'] evs] eqn:Hg.
  apply get_subtitle_effect in Hg.
  destruct Hg as (_ & _ & _ & _ & _ & _ & _ & _ & Hcase).
  assert (path_exists st (cache_entry bvid page_number) = true) as Hex.
  { unfold path_exists, is_file. rewrite Hhit. reflexivity. }
  rewrite Hex in Hcase. destruct Hcase as (-> & -> & Hr).
  by rewrite (Hr _ _ Hhit).
Qed.

(** ** Runs that only add files *)

Lemma started_app (a b : list event) : started (a ++ b) = started a ++ started b.
Proof. apply omap_app. Qed.

Lemma started_none (evs : list event) : attempts_made evs = 0%nat → started evs = [].
Proof.
  unfold attempts_made, started. induction evs as [|ev evs IH]; [done |].
  rewrite filter_cons.
  destruct ev as [[] [] ?| | | | |]; simpl; try exact IH. discriminate.
Qed.

Lemma path_exists_false st (p : path) :
  path_exists st p = false ↔ files st !! p = None ∧ p ∉ dirs st.
Proof.
  unfold path_exists, is_file. rewrite orb_false_iff, !bool_decide_eq_false.
  rewrite <- eq_None_not_Some. done.
Qed.

Lemma path_exists_mono st st' (p : path) :
  (∀ q x, files st !! q = Some x → files st' !! q = Some x) → dirs st ⊆ dirs st' →
  path_exists st' p = false → path_exists st p = false.
Proof.
  intros Hf Hd. rewrite !path_exists_false. intros [Hn Hnd]. split.
  - destruct (files st !! p) as [x|] eqn:Hp; [| done].
    apply Hf in Hp. congruence.
  - set_solver.
Qed.

Lemma careful_quiet (args : arguments) st st' evs :
  files st' = files st → dirs st' = dirs st →
  removed evs = [] → written evs = [] → started evs = [] →
  careful args st st' evs.
Proof.
  intros Hf Hd Hr Hw Hs. split; rewrite ?Hf, ?Hd, ?Hr, ?Hw, ?Hs; try done.
Qed.

Lemma careful_app (args : arguments) st st1 st2 ev1 ev2 :
  careful args st st1 ev1 → careful args st1 st2 ev2 →
  careful args st st2 (ev1 ++ ev2).
Proof.
  intros [K1 D1 R1 F1 P1 S1] [K2 D2 R2 F2 P2 S2]. split.
  - intros p x Hp. by apply K2, K1.
  - set_solver.
  - by rewrite removed_app, R1, R2.
  - rewrite written_app. apply Forall_app. split; [done |].
    eapply Forall_impl; [exact F2 |]. intros [p c]. simpl.
    by apply path_exists_mono.
  - rewrite written_app. apply Forall_app. split; [| done].
    eapply Forall_impl; [exact P1 |]. intros [p c] [t Ht]. simpl in *.
    exists t. by apply K2.
  - rewrite started_app. apply Forall_app. split; [done |].
    eapply Forall_impl; [exact S2 |]. intros [n t]. simpl.
    by apply path_exists_mono.
Qed.

Lemma get_subtitle_careful (args : arguments) (v : video) (n : Z) (dev ms bvid : str)
    st r st' evs :
  get_subtitle v n dev ms bvid st = (r, st', evs) →
  careful args st st' evs
  ∧ ∀ q, q ≠ cache_entry bvid n → files st' !! q = files st !! q.
Proof.
  intros Hg. pose proof (get_subtitle_writes _ _ _ _ _ _ _ _ _ Hg) as Hw.
  apply get_subtitle_effect in Hg.
  destruct Hg as (Hd & _ & _ & _ & Hrem & Hatt & _).
  apply started_none in Hatt.
  destruct Hw as [[Hw Hf] | (t & Hw & Hmiss & _ & _ & Hf)].
  - split; [by apply careful_quiet | intros; by rewrite Hf].
  - split; [| intros; rewrite Hf; by apply lookup_insert_ne].
    apply path_exists_false in Hmiss as Hmiss'. destruct Hmiss' as [Hnone _].
    split; rewrite ?Hd, ?Hrem, ?Hw, ?Hatt, ?Hf; try done.
    + intros p x Hp. rewrite lookup_insert_ne; [done | congruence].
    + by repeat constructor.
    + repeat constructor. simpl. eexists. apply lookup_insert_eq.
Qed.

Lemma after_resolution_careful (sn : Z) (title prompt : str) (args : arguments)
    (t : option str) st r st' evs :
  path_exists st (output_record args sn title) = false →
  after_resolution sn title prompt args t st = (r, st', evs) →
  careful args st st' evs
  ∧ ∀ e, r = Raise e → files st' = files st ∧ dirs st' = dirs st.
Proof.
  intros Habs Ha. apply after_resolution_effect in Ha.
  destruct Ha as (_ & _ & _ & Hrem & _ & Hatt & Hw).
  apply started_none in Hatt.
  destruct Hw as [(Hw & Hf & Hd) | (s & Hw & -> & Hd & Hf)].
  - split; [by apply careful_quiet | done].
  - split; [| done].
    apply path_exists_false in Habs as Habs'. destruct Habs' as [Hnone _].
    split; rewrite ?Hd, ?Hrem, ?Hw, ?Hatt, ?Hf; try done.
    + intros p x Hp. rewrite lookup_insert_ne; [done | congruence].
    + apply union_subseteq_r.
    + by repeat constructor.
    + repeat constructor. simpl. eexists. apply lookup_insert_eq.
Qed.

(** An attempt for an output record that does not exist is careful, and
    when it raises the record still does not exist. *)
Lemma process_page_attempt_careful (v : video) (n sn : Z) (title prompt bvid : str)
    (args : arguments) st r st' evs :
  path_exists st (output_record args sn title) = false →
  process_page_attempt v n sn title prompt bvid args st = (r, st', evs) →
  careful args st st' evs
  ∧ ∀ e, r = Raise e → path_exists st' (output_record args sn title) = false.
Proof.
  intros Habs. rewrite process_page_attempt_unfold, bind_run. unfold logging at 1.
  rewrite bind_run.
  destruct (get_subtitle v n _ _ bvid st) as [[rg sg] eg] eqn:Hg.
  pose proof (get_subtitle_effect _ _ _ _ _ _ _ _ _ Hg) as (Hdg & _).
  apply (get_subtitle_careful args) in Hg. destruct Hg as [Cg Hother].
  assert (path_exists sg (output_record args sn title) = false) as Habs'.
  { apply path_exists_false in Habs as [Hnone Hnd]. apply path_exists_false.
    rewrite Hother, Hdg; [done |]. apply output_record_not_cache_entry. }
  assert (careful args st st [EvLog INFO (MsgProcessing sn title) false]) as Clog.
  { split; try done. repeat constructor. done. }
  destruct rg as [t|e].
  - destruct (after_resolution sn title prompt args t sg) as [[ra sa] ea] eqn:Ha.
    apply after_resolution_careful in Ha; [| done]. destruct Ha as [Ca Hraise].
    intros [= <- <- <-]. split.
    + eapply (careful_app _ _ st _ [_]); [exact Clog |]. by eapply careful_app.
    + intros e He. destruct (Hraise e He) as [Hf Hd].
      apply path_exists_false in Habs' as [Hnone Hnd]. apply path_exists_false.
      by rewrite Hf, Hd.
  - intros [= <- <- <-]. split.
    + eapply (careful_app _ _ st _ [_]); [exact Clog | done].
    + done.
Qed.

Lemma process_page_loop_careful (attempts : list nat) (max_retries : nat)
    (v : video) (n sn : Z) (title prompt bvid : str) (args : arguments) st r st' evs :
  path_exists st (output_record args sn title) = false →
  process_page_loop attempts max_retries v n sn title prompt bvid args st
    = (r, st', evs) →
  careful args st st' evs.
Proof.
  revert st r st' evs. induction attempts as [|attempt rest IH]; intros st r st' evs Habs.
  - intros [= <- <- <-]. by apply careful_quiet.
  - rewrite process_page_loop_cons.
    destruct (process_page_attempt v n sn title prompt bvid args st)
      as [[ra st1] ev1] eqn:Ha.
    apply process_page_attempt_careful in Ha; [| done]. destruct Ha as [Ca Hraise].
    destruct ra as [[]|e]; [by intros [= <- <- <-] |].
    specialize (Hraise e eq_refl).
    destruct (is_network_error e); cbn zeta.
    + destruct (Z.of_nat attempt + 1 =? Z.of_nat max_retries).
      * destruct (process_page_loop rest _ _ _ _ _ _ _ _ st1) as [[r2 st2] ev2] eqn:Hl.
        apply IH in Hl; [| done]. intros [= <- <- <-].
        eapply careful_app; [exact Ca |].
        eapply (careful_app _ st1 st1 _ [_; _]); [by apply careful_quiet | done].
      * destruct (process_page_loop rest _ _ _ _ _ _ _ _ _) as [[r2 st2] ev2] eqn:Hl.
        apply IH in Hl; [| done]. intros [= <- <- <-].
        eapply careful_app; [exact Ca |].
        eapply (careful_app _ _ _ _ [_; _]); [| exact Hl]. by apply careful_quiet.
    + intros [= <- <- <-]. eapply careful_app; [exact Ca |]. by apply careful_quiet.
Qed.

Lemma process_bvid_step_careful (args : arguments) (v : video) (prompt : str)
    (pg : page_details) st r st' evs :
  process_bvid_step args v prompt pg st = (r, st', evs) →
  r = Ok tt ∧ careful args st st' evs.
Proof.
  rewrite process_bvid_step_run.
  destruct (path_exists st (output_record args (page pg) (part pg))) eqn:Hex.
  - intros [= <- <- <-]. split; [done | by apply careful_quiet].
  - rewrite process_page_unfold. intros Hl. split.
    + destruct (process_page_loop_total [0; 1; 2]%nat 3 v (page pg)
                  (save_number_of pg None) (part pg) prompt (arg_bvid args) args st)
        as (s & e & Heq & _).
      rewrite Heq in Hl. by injection Hl as <- _ _.
    + by eapply process_page_loop_careful.
Qed.

Lemma for_each_careful {A} (args : arguments) (body : A → M W unit) (l : list A) :
  (∀ x st r st' evs, body x st = (r, st', evs) → r = Ok tt ∧ careful args st st' evs) →
  ∀ st r st' evs, for_each l body st = (r, st', evs) →
    r = Ok tt ∧ careful args st st' evs.
Proof.
  intros Hbody. induction l as [|x l IH]; intros st r st' evs.
  - intros [= <- <- <-]. split; [done | by apply careful_quiet].
  - cbn [for_each]. rewrite bind_run.
    destruct (body x st) as [[rb st1] ev1] eqn:Hb.
    apply Hbody in Hb as [-> Cb].
    destruct (for_each l body st1) as [[r2 st2] ev2] eqn:Hl.
    apply IH in Hl as [-> Cl]. intros [= <- <- <-].
    split; [done | by eapply careful_app].
Qed.

Lemma read_prompt_run (filename : str) st :
  ∃ r, read_prompt filename st = (r, st, []).
Proof.
  unfold read_prompt, try_except, read_text, raise.
  repeat case_match; simplify_eq; eauto.
Qed.

(** A run of the single-video orchestrator is careful. *)
Lemma process_bvid_careful (args : arguments) st r st' evs :
  process_bvid args st = (r, st', evs) → careful args st st' evs.
Proof.
  unfold process_bvid. rewrite bind_run.
  destruct (read_prompt_run (arg_prompt args) st) as [rp ->].
  destruct rp as [prompt|e]; [| intros [= <- <- <-]; by apply careful_quiet].
  rewrite bind_run. unfold try_except. rewrite bind_run. unfold await.
  destruct (video_get_pages svc _ (world st)) as [[all_pages|e] w].
  - rewrite bind_run. unfold logging at 1, ret.
    destruct (for_each _ _ _) as [[r2 st2] ev2] eqn:Hl.
    apply (for_each_careful args) in Hl as [_ Cl];
      [| intros; by eapply process_bvid_step_careful].
    intros [= <- <- <-]. simpl.
    eapply (careful_app _ _ (set_world w st) _ [_; _]); [by apply careful_quiet | done].
  - rewrite bind_run. unfold logging, ret. intros [= <- <- <-].
    by apply careful_quiet.
Qed.

(** C2. Two runs of the single-video orchestrator, the second starting
    where the first ended (whatever the services answer the second time).
    A page whose output record exists when its turn comes is skipped: the
    step logs the skip and does nothing else.  The second run removes
    nothing, keeps every file the first run left exactly as it was (so
    everything the first run wrote is still there unchanged), writes only
    to paths that did not exist when it started, and starts no attempt for
    a page whose output record existed when it started. *)
Theorem process_bvid_rerun_is_idempotent (args : arguments) st r1 st1 ev1 r2 st2 ev2 :
  process_bvid args st = (r1, st1, ev1) →
  process_bvid args st1 = (r2, st2, ev2) →
  (∀ v prompt pg st0,
     path_exists st0 (output_record args (page pg) (part pg)) = true →
     process_bvid_step args v prompt pg st0
     = (Ok tt, st0, [EvLog INFO (MsgSkipping (page pg) (part pg)) false]))
  ∧ removed ev2 = []
  ∧ (∀ p x, files st1 !! p = Some x → files st2 !! p = Some x)
  ∧ Forall (fun pc => ∃ t, files st2 !! pc.1 = Some (pc.2, t)) (written ev1)
  ∧ Forall (fun pc => path_exists st1 pc.1 = false) (written ev2)
  ∧ Forall (fun nt => path_exists st1 (output_record args nt.1 nt.2) = false)
      (started ev2).
Proof.
  intros H1 H2. apply process_bvid_careful in H1, H2.
  destruct H1 as [K1 D1 R1 F1 P1 S1]. destruct H2 as [K2 D2 R2 F2 P2 S2].
  split_and!; try done.
  - intros v prompt pg st0 Hex. by rewrite process_bvid_step_run, Hex.
  - eapply Forall_impl; [exact P1 |]. intros [p c] [t Ht]. exists t. by apply K2.
Qed.

(** The Page Processor writes nowhere but at the cache entry of its page
    and at the output record of its save number and title. *)
Lemma process_page_loop_writes (attempts : list nat) (max_retries : nat)
    (v : video) (n sn : Z) (title prompt bvid : str) (args : arguments) st r st' evs :
  process_page_loop attempts max_retries v n sn title prompt bvid args st
    = (r, st', evs) →
  Forall (fun pc => pc.1 = cache_entry bvid n ∨ pc.1 = output_record args sn title)
    (written evs).
Proof.
  revert st r st' evs. induction attempts as [|attempt rest IH]; intros st r st' evs.
  - intros [= <- <- <-]. constructor.
  - rewrite process_page_loop_cons.
    destruct (process_page_attempt v n sn title prompt bvid args st)
      as [[ra st1] ev1] eqn:Ha.
    apply process_page_attempt_effect in Ha.
    destruct Ha as (_ & _ & _ & _ & _ & _ & cw & ow & Hw & Hcw & How & _).
    assert (Forall (fun pc => pc.1 = cache_entry bvid n ∨ pc.1 = output_record args sn title)
              (written ev1)) as H1.
    { rewrite Hw. apply Forall_app. split.
      - destruct Hcw as [-> | (t & -> & _)]; [constructor |].
        constructor; [by left | constructor].
      - destruct How as [[-> _] | (s & -> & _)]; [constructor |].
        constructor; [by right | constructor]. }
    destruct ra as [[]|e]; [by intros [= <- <- <-] |].
    destruct (is_network_error e); cbn zeta.
    + destruct (Z.of_nat attempt + 1 =? Z.of_nat max_retries);
        destruct (process_page_loop rest _ _ _ _ _ _ _ _ _) as [[r2 st2] ev2] eqn:Hl;
        apply IH in Hl; intros [= <- <- <-]; events_norm; cbv beta iota;
        apply Forall_app; done.
    + intros [= <- <- <-]. events_norm. cbv beta iota. by rewrite app_nil_r.
Qed.

(** C10. The output record: the path the Output Writer returns for a save
    number and a title, where it has then written the file.  In
    single-video mode (save number: the page's own number) and in season
    mode (save number: the global counter) the orchestrator's step tests
    the existence of exactly that path: it skips the page when the path
    exists, in particular whenever the file written there is present, and
    hands the page to the Page Processor otherwise; and the Page Processor,
    given the same save number and title, writes nowhere but at that path
    and at the cache entry of the page. *)
Theorem checkpoint_path_is_save_path (args : arguments) (v : video)
    (prompt bvid content : str) (pg : page_details) (counter : Z) (st0 : state W) :
  (∃ file_path st1 evs,
     save (page pg) (part pg) content (arg_output_dir args) st0
       = (Ok file_path, st1, evs)
     ∧ is_file st1 file_path = true
     ∧ (∀ st, process_bvid_step args v prompt pg st
              = if path_exists st file_path
                then (Ok tt, st, [EvLog INFO (MsgSkipping (page pg) (part pg)) false])
                else process_page v pg prompt (arg_bvid args) args None st)
     ∧ (∀ st, is_file st file_path = true →
              process_bvid_step args v prompt pg st
              = (Ok tt, st, [EvLog INFO (MsgSkipping (page pg) (part pg)) false]))
     ∧ (∀ st r st' evs',
          process_page v pg prompt (arg_bvid args) args None st = (r, st', evs') →
          Forall (fun pc => pc.1 = cache_entry (arg_bvid args) (page pg) ∨ pc.1 = file_path)
            (written evs')))
  ∧ (∃ file_path st1 evs,
       save counter (part pg) content (arg_output_dir args) st0
         = (Ok file_path, st1, evs)
       ∧ is_file st1 file_path = true
       ∧ (∀ st, process_season_step args v prompt bvid counter pg st
                = if path_exists st file_path
                  then (Ok (counter + 1), st,
                        [EvLog INFO (MsgSkipping counter (part pg)) false])
                  else (process_page v pg prompt bvid args (Some counter);;
                        ret (counter + 1)) st)
       ∧ (∀ st, is_file st file_path = true →
                process_season_step args v prompt bvid counter pg st
                = (Ok (counter + 1), st,
                   [EvLog INFO (MsgSkipping counter (part pg)) false]))
       ∧ (∀ st r st' evs',
            process_page v pg prompt bvid args (Some counter) st = (r, st', evs') →
            Forall (fun pc => pc.1 = cache_entry bvid (page pg) ∨ pc.1 = file_path)
              (written evs'))).
Proof.
  split.
  - eexists _, _, _. split; [apply save_run |]. split_and!.
    + unfold is_file. simpl. rewrite lookup_insert_eq. reflexivity.
    + intros st. apply process_bvid_step_run.
    + intros st Hf. rewrite process_bvid_step_run. unfold path_exists. by rewrite Hf.
    + intros st r st' evs'. rewrite process_page_unfold. apply process_page_loop_writes.
  - eexists _, _, _. split; [apply save_run |]. split_and!.
    + unfold is_file. simpl. rewrite lookup_insert_eq. reflexivity.
    + intros st. apply process_season_step_run.
    + intros st Hf. rewrite process_season_step_run. unfold path_exists. by rewrite Hf.
    + intros st r st' evs'. rewrite process_page_unfold. apply process_page_loop_writes.
Qed.


(** ** Season numbering *)

Lemma numbered_from_cons (first : Z) (pg : page_details) (pages : list page_details) :
  numbered_from first (pg :: pages) = (first, pg) :: numbered_from (first + 1) pages.
Proof.
  unfold numbered_from. cbn [length]. rewrite seqZ_cons by lia.
  cbn [zip zip_with]. do 3 f_equal. lia.
Qed.

Lemma dispatch_numbered_run (args : arguments) (v : video) (prompt bvid : str)
    (n : Z) (pg : page_details) st :
  dispatch_numbered args v prompt bvid (n, pg) st
  = if path_exists st (output_record args n (part pg))
    then (Ok tt, st, [EvLog INFO (MsgSkipping n (part pg)) false])
    else process_page v pg prompt bvid args (Some n) st.
Proof.
  unfold dispatch_numbered. cbn [fst snd]. rewrite bind_run. unfold os_path_exists.
  destruct (path_exists st _); [reflexivity |].
  by destruct (process_page _ _ _ _ _ _ _) as [[r s] e].
Qed.

Lemma process_season_step_ok (args : arguments) (v : video) (prompt bvid : str)
    (counter : Z) (pg : page_details) st :
  ∃ st' evs,
    process_season_step args v prompt bvid counter pg st = (Ok (counter + 1), st', evs)
    ∧ dispatch_numbered args v prompt bvid (counter, pg) st = (Ok tt, st', evs).
Proof.
  rewrite process_season_step_run, dispatch_numbered_run.
  destruct (path_exists st (output_record args counter (part pg))).
  - eexists _, _. split; reflexivity.
  - rewrite bind_run, process_page_unfold.
    destruct (process_page_loop_total [0; 1; 2]%nat 3 v (page pg)
                (save_number_of pg (Some counter)) (part pg) prompt bvid args st)
      as (s & e & -> & _).
    eexists _, _. split; [unfold ret; by rewrite app_nil_r | reflexivity].
Qed.

(** The loop over the pages of one video gives the pages the numbers
    [counter], [counter + 1], ... and ends with the counter advanced by
    the number of pages. *)
Lemma process_season_pages_numbered (args : arguments) (v : video) (prompt bvid : str)
    (pages : list page_details) (counter : Z) st :
  ∃ st' evs,
    for_fold pages counter (process_season_step args v prompt bvid) st
      = (Ok (counter + Z.of_nat (length pages)), st', evs)
    ∧ for_each (numbered_from counter pages) (dispatch_numbered args v prompt bvid) st
      = (Ok tt, st', evs).
Proof.
  revert counter st. induction pages as [|pg pages IH]; intros counter st.
  - eexists _, _. cbn. unfold ret. rewrite Z.add_0_r. split; reflexivity.
  - rewrite numbered_from_cons. cbn [for_fold for_each]. rewrite !bind_run.
    destruct (process_season_step_ok args v prompt bvid counter pg st)
      as (st1 & ev1 & -> & ->).
    destruct (IH (counter + 1) st1) as (st2 & ev2 & -> & ->).
    eexists _, _. split; [| reflexivity]. do 3 f_equal. cbn [length]. lia.
Qed.

Lemma numbered_from_fst (first : Z) (pages : list page_details) :
  (numbered_from first pages).*1 = seqZ first (Z.of_nat (length pages)).
Proof.
  unfold numbered_from. apply fst_zip. rewrite length_seqZ. lia.
Qed.

Lemma numbered_from_snd (first : Z) (pages : list page_details) :
  (numbered_from first pages).*2 = pages.
Proof.
  unfold numbered_from. apply snd_zip. rewrite length_seqZ. lia.
Qed.

(** ** Save numbers of a whole season *)

Lemma blocks_le (c c' : Z) (l : list Z) : blocks c l c' → c <= c'.
Proof. induction 1; lia. Qed.

Lemma blocks_head (c c' : Z) (l : list Z) (y : Z) (r : list Z) :
  blocks c l c' → l = y :: r → y = c.
Proof.
  intros H. destruct H as [c|c k l c' Hk _]; [done |].
  destruct k as [|k]; [lia |]. by intros [= <- _].
Qed.

Lemma blocks_app (c c1 c2 : Z) (l1 l2 : list Z) :
  blocks c l1 c1 → blocks c1 l2 c2 → blocks c (l1 ++ l2) c2.
Proof.
  induction 1 as [c|c k l c' Hk _ IH]; intros H2; [done |].
  rewrite <- app_assoc. constructor; [done | by apply IH].
Qed.

Lemma blocks_one (c : Z) (k : nat) : (0 < k)%nat → blocks c (replicate k c) (c + 1).
Proof.
  intros Hk. rewrite <- (app_nil_r (replicate k c)). constructor; [done | constructor].
Qed.

Lemma squeeze_replicate (c : Z) (k : nat) (l : list Z) :
  (0 < k)%nat → (∀ y r, l = y :: r → y ≠ c) →
  squeeze (replicate k c ++ l) = c :: squeeze l.
Proof.
  intros Hk Hl. induction k as [|k IH]; [lia |].
  destruct k as [|k].
  - cbn [replicate app squeeze]. destruct l as [|y r]; [done |].
    destruct (Z.eqb_spec c y) as [->|Hne]; [| done].
    by destruct (Hl y r eq_refl).
  - change (replicate (S (S k)) c ++ l) with (c :: c :: replicate k c ++ l).
    cbn [squeeze]. rewrite Z.eqb_refl. apply IH. lia.
Qed.

Lemma blocks_squeeze (c c' : Z) (l : list Z) :
  blocks c l c' → squeeze l = seqZ c (c' - c).
Proof.
  induction 1 as [c|c k l c' Hk Hb IH].
  - by rewrite Z.sub_diag.
  - rewrite squeeze_replicate; [| done |].
    + apply blocks_le in Hb as Hle. rewrite (seqZ_cons c) by lia.
      rewrite IH. do 2 f_equal; lia.
    + intros y r Hl. apply (blocks_head _ _ _ _ _ Hb) in Hl. lia.
Qed.

Lemma save_numbers_app (a b : list event) :
  save_numbers (a ++ b) = save_numbers a ++ save_numbers b.
Proof. apply omap_app. Qed.

Lemma save_numbers_cons (ev : event) (l : list event) :
  save_numbers (ev :: l)
  = match ev with
    | EvLog INFO (MsgSkipping n _) _ => n :: save_numbers l
    | EvLog INFO (MsgProcessing n _) _ => n :: save_numbers l
    | _ => save_numbers l
    end.
Proof. by destruct ev as [[] [] ?| | | | |]. Qed.

Lemma get_subtitle_save_numbers (v : video) (n : Z) (dev ms bvid : str) st r st' evs :
  get_subtitle v n dev ms bvid st = (r, st', evs) → save_numbers evs = [].
Proof.
  unfold get_subtitle, generate_subtitles.
  unfold mbind, M_bind, bind, os_path_exists, logging, read_text, await, write_text, ret.
  intros H. repeat case_match; simplify_eq; reflexivity.
Qed.

Lemma after_resolution_save_numbers (sn : Z) (title prompt : str) (args : arguments)
    (t : option str) st r st' evs :
  after_resolution sn title prompt args t st = (r, st', evs) → save_numbers evs = [].
Proof.
  unfold after_resolution, summarize, save.
  unfold mbind, M_bind, bind, logging, await, write_text, os_makedirs, ret.
  intros H. repeat case_match; simplify_eq; reflexivity.
Qed.

Lemma process_page_attempt_save_numbers (v : video) (n sn : Z) (title prompt bvid : str)
    (args : arguments) st r st' evs :
  process_page_attempt v n sn title prompt bvid args st = (r, st', evs) →
  save_numbers evs = [sn].
Proof.
  rewrite process_page_attempt_unfold, bind_run. unfold logging at 1.
  rewrite bind_run.
  destruct (get_subtitle v n _ _ bvid st) as [[rg sg] eg] eqn:Hg.
  apply get_subtitle_save_numbers in Hg.
  destruct rg as [t|e].
  - destruct (after_resolution sn title prompt args t sg) as [[ra sa] ea] eqn:Ha.
    apply after_resolution_save_numbers in Ha. intros [= <- <- <-].
    change (save_numbers ([EvLog INFO (MsgProcessing sn title) false] ++ eg ++ ea) = [sn]).
    by rewrite !save_numbers_app, Hg, Ha.
  - intros [= <- <- <-].
    change (save_numbers ([EvLog INFO (MsgProcessing sn title) false] ++ eg) = [sn]).
    by rewrite save_numbers_app, Hg.
Qed.

(** The log of the Page Processor names its save number once per attempt. *)
Lemma process_page_loop_save_numbers (attempts : list nat) (max_retries : nat)
    (v : video) (n sn : Z) (title prompt bvid : str) (args : arguments) st r st' evs :
  process_page_loop attempts max_retries v n sn title prompt bvid args st = (r, st', evs) →
  ∃ k, save_numbers evs = replicate k sn ∧ (attempts ≠ [] → (0 < k)%nat).
Proof.
  revert st r st' evs. induction attempts as [|attempt rest IH]; intros st r st' evs.
  - intros [= <- <- <-]. by exists 0%nat.
  - rewrite process_page_loop_cons.
    destruct (process_page_attempt v n sn title prompt bvid args st)
      as [[ra st1] ev1] eqn:Ha.
    apply process_page_attempt_save_numbers in Ha.
    destruct ra as [[]|e].
    { intros [= <- <- <-]. exists 1%nat. split; [done | lia]. }
    destruct (is_network_error e); cbn zeta.
    + destruct (Z.of_nat attempt + 1 =? Z.of_nat max_retries);
        destruct (process_page_loop rest _ _ _ _ _ _ _ _ _) as [[r2 st2] ev2] eqn:Hl;
        apply IH in Hl as (k & Hk & _); intros [= <- <- <-];
        exists (S k); (split; [| lia]);
        repeat (rewrite save_numbers_app || rewrite save_numbers_cons);
        cbv beta iota; rewrite Ha, Hk; reflexivity.
    + intros [= <- <- <-]. exists 1%nat. split; [| lia].
      repeat (rewrite save_numbers_app || rewrite save_numbers_cons).
      cbv beta iota. by rewrite Ha.
Qed.

Lemma process_season_step_blocks (args : arguments) (v : video) (prompt bvid : str)
    (counter : Z) (pg : page_details) st r st' evs :
  process_season_step args v prompt bvid counter pg st = (r, st', evs) →
  r = Ok (counter + 1) ∧ blocks counter (save_numbers evs) (counter + 1).
Proof.
  rewrite process_season_step_run.
  destruct (path_exists st (output_record args counter (part pg))).
  - intros [= <- <- <-]. split; [done |]. apply (blocks_one counter 1). lia.
  - rewrite bind_run, process_page_unfold.
    destruct (process_page_loop_total [0; 1; 2]%nat 3 v (page pg)
                (save_number_of pg (Some counter)) (part pg) prompt bvid args st)
      as (s & e & Hrun & _).
    rewrite Hrun. apply process_page_loop_save_numbers in Hrun as (k & Hk & Hpos).
    unfold ret. intros [= <- <- <-]. split; [done |].
    rewrite app_nil_r, Hk. apply blocks_one. by apply Hpos.
Qed.

Lemma process_season_pages_blocks (args : arguments) (v : video) (prompt bvid : str)
    (pages : list page_details) (counter : Z) st r st' evs :
  for_fold pages counter (process_season_step args v prompt bvid) st = (r, st', evs) →
  r = Ok (counter + Z.of_nat (length pages))
  ∧ blocks counter (save_numbers evs) (counter + Z.of_nat (length pages)).
Proof.
  revert counter st r st' evs. induction pages as [|pg pages IH]; intros counter st r st' evs.
  - intros [= <- <- <-]. cbn. rewrite Z.add_0_r. split; [done | constructor].
  - cbn [for_fold]. rewrite bind_run.
    destruct (process_season_step args v prompt bvid counter pg st)
      as [[r1 st1] ev1] eqn:H1.
    apply process_season_step_blocks in H1 as [-> B1].
    destruct (for_fold pages (counter + 1) _ st1) as [[r2 st2] ev2] eqn:H2.
    apply IH in H2 as [-> B2]. intros [= <- <- <-].
    replace (counter + Z.of_nat (length (pg :: pages)))
      with (counter + 1 + Z.of_nat (length pages)) by (cbn [length]; lia).
    split; [done |]. rewrite save_numbers_app. by eapply blocks_app.
Qed.

Lemma process_season_video_blocks (args : arguments) (counter : Z) (bvid : str)
    st r st' evs :
  process_season_video args counter bvid st = (r, st', evs) →
  ∃ c', blocks counter (save_numbers evs) c' ∧ ∀ c'', r = Ok c'' → c'' = c'.
Proof.
  unfold process_season_video. rewrite bind_run.
  destruct (read_prompt_run (arg_prompt args) st) as [rp ->].
  destruct rp as [prompt|e].
  2: { intros [= <- <- <-]. exists counter. split; [constructor | done]. }
  rewrite bind_run. unfold try_except. rewrite bind_run. unfold await.
  destruct (video_get_pages svc _ (world st)) as [[all_pages|e] w].
  - unfold ret.
    destruct (for_fold _ _ _ _) as [[r2 st2] ev2] eqn:Hl.
    apply process_season_pages_blocks in Hl as [-> B]. intros [= <- <- <-].
    exists (counter + Z.of_nat (length all_pages)). split; [exact B |].
    by intros ? [= <-].
  - rewrite bind_run. unfold logging, ret. intros [= <- <- <-].
    exists counter. split; [constructor |]. by intros ? [= <-].
Qed.

Lemma process_season_videos_blocks (args : arguments) (archives : list str)
    (counter : Z) st r st' evs :
  for_fold archives counter (process_season_video args) st = (r, st', evs) →
  ∃ c', blocks counter (save_numbers evs) c' ∧ ∀ c'', r = Ok c'' → c'' = c'.
Proof.
  revert counter st r st' evs.
  induction archives as [|bvid archives IH]; intros counter st r st' evs.
  - intros [= <- <- <-]. exists counter. split; [constructor |]. by intros ? [= <-].
  - cbn [for_fold]. rewrite bind_run.
    destruct (process_season_video args counter bvid st) as [[r1 st1] ev1] eqn:H1.
    apply process_season_video_blocks in H1 as (c1 & B1 & Hc1).
    destruct r1 as [c1'|e].
    + rewrite (Hc1 c1' eq_refl).
      destruct (for_fold archives c1 _ st1) as [[r2 st2] ev2] eqn:H2.
      apply IH in H2 as (c2 & B2 & Hc2). intros [= <- <- <-].
      exists c2. split; [| done]. rewrite save_numbers_app. by eapply blocks_app.
    + intros [= <- <- <-]. exists c1. split; [done | done].
Qed.

(** C6. Season mode.  The orchestrator starts the global counter at 1.
    Each step of the page loop returns normally with the counter advanced
    by exactly one, whether it skipped the page or handed it to the Page
    Processor.  For a video whose pages are fetched, the loop does what the
    specification says: the pages get the save numbers counter,
    counter + 1, ... in page order, whatever their own page numbers, and
    the counter ends advanced by the number of pages.  For a video whose
    page-list fetch raises, the error is logged, the counter is unchanged,
    and the loop over the videos goes on with the next video.  Over a whole
    run, the save numbers in the skip and processing log records, retries
    of one page counted once, are 1, 2, 3, ... without a gap. *)
Theorem process_season_numbering (args : arguments) :
  (∀ season_id st,
     process_season args season_id st
     = (archives ← await (CallGetVideos season_id) (series_get_videos svc season_id);
        logging INFO (MsgFoundVideos (Z.of_nat (length archives)) season_id);;
        for_fold archives 1 (process_season_video args);;
        ret tt) st)
  ∧ (∀ v prompt bvid counter pg st,
       ∃ st' evs,
         process_season_step args v prompt bvid counter pg st
         = (Ok (counter + 1), st', evs))
  ∧ (∀ counter pages,
       (numbered_from counter pages).*1 = seqZ counter (Z.of_nat (length pages))
       ∧ (numbered_from counter pages).*2 = pages)
  ∧ (∀ counter bvid st prompt pages w,
       read_prompt (arg_prompt args) st = (Ok prompt, st, []) →
       video_get_pages svc bvid (world st) = (Ok pages, w) →
       ∃ st' evs,
         process_season_video args counter bvid st
         = (Ok (counter + Z.of_nat (length pages)), st', EvCall (CallGetPages bvid) :: evs)
         ∧ for_each (numbered_from counter pages)
             (dispatch_numbered args (Video bvid) prompt bvid) (set_world w st)
           = (Ok tt, st', evs))
  ∧ (∀ counter bvid rest st prompt e w,
       read_prompt (arg_prompt args) st = (Ok prompt, st, []) →
       video_get_pages svc bvid (world st) = (Raise e, w) →
       let report :=
         [EvCall (CallGetPages bvid);
          EvLog ERROR (MsgSeasonPagesFailed bvid e) false] in
       process_season_video args counter bvid st
       = (Ok counter, set_world w st, report)
       ∧ for_fold (bvid :: rest) counter (process_season_video args) st
         = match for_fold rest counter (process_season_video args) (set_world w st) with
           | (r, st', evs) => (r, st', report ++ evs)
           end)
  ∧ (∀ season_id st r st' evs,
       process_season args season_id st = (r, st', evs) →
       ∃ pages_enumerated : nat,
         squeeze (save_numbers evs) = seqZ 1 (Z.of_nat pages_enumerated)).
Proof.
  split_and!.
  - reflexivity.
  - intros. destruct (process_season_step_ok args v prompt bvid counter pg st)
      as (st' & evs & H & _). eauto.
  - intros. split; [apply numbered_from_fst | apply numbered_from_snd].
  - intros counter bvid st prompt pages w Hp Hg.
    unfold process_season_video. rewrite bind_run, Hp, bind_run.
    unfold try_except. rewrite bind_run. unfold await. cbn [video_bvid]. rewrite Hg.
    unfold ret.
    destruct (process_season_pages_numbered args (Video bvid) prompt bvid pages counter
                (set_world w st)) as (st' & evs & -> & ->).
    eexists _, _. split; reflexivity.
  - intros counter bvid rest st prompt e w Hp Hg report.
    assert (process_season_video args counter bvid st
            = (Ok counter, set_world w st, report)) as Hv.
    { unfold process_season_video. rewrite bind_run, Hp, bind_run.
      unfold try_except. rewrite bind_run. unfold await. cbn [video_bvid]. rewrite Hg.
      reflexivity. }
    split; [exact Hv |].
    cbn [for_fold]. by rewrite bind_run, Hv.
  - intros season_id st r st' evs. unfold process_season.
    rewrite bind_run. unfold await.
    destruct (series_get_videos svc season_id (world st)) as [[archives|e] w].
    2: { intros [= <- <- <-]. by exists 0%nat. }
    rewrite bind_run. unfold logging at 1. rewrite bind_run.
    destruct (for_fold _ _ _ _) as [[r2 st2] ev2] eqn:Hl.
    apply process_season_videos_blocks in Hl as (c' & B & _).
    apply blocks_le in B as Hle. apply blocks_squeeze in B.
    destruct r2; unfold ret; intros [= <- <- <-];
      exists (Z.to_nat (c' - 1)); rewrite Z2Nat.id by lia;
      repeat (rewrite save_numbers_app || rewrite save_numbers_cons);
      cbv beta iota; by rewrite ?app_nil_r.
Qed.

(** ** Cache eviction *)

Lemma cleanup_cache_step_run (directory : path) (cutoff_time : Q) (count : Z)
    (filename : str) st :
  let p := os_path_join directory filename in
  (evictable st cutoff_time p
   ∧ cleanup_cache_step directory cutoff_time count filename st
     = (Ok (count + 1), set_files (delete p (files st)) st, [EvRemove p]))
  ∨ (¬ evictable st cutoff_time p ∧ eviction_fails st cutoff_time p
     ∧ cleanup_cache_step directory cutoff_time count filename st
       = (Ok count, st, [EvLog ERROR (MsgCleanupError p OSError) false]))
  ∨ (¬ evictable st cutoff_time p ∧ ¬ eviction_fails st cutoff_time p
     ∧ cleanup_cache_step directory cutoff_time count filename st = (Ok count, st, [])).
Proof.
  intros p. unfold cleanup_cache_step. fold p.
  rewrite bind_run. unfold os_path_isfile, is_file, try_except, mbind, M_bind, bind,
    os_path_getmtime, os_remove, logging, ret, raise.
  destruct (files st !! p) as [[c mtime]|] eqn:Hp.
  2: { right; right. rewrite bool_decide_eq_false_2 by (intros [? ?]; done).
       split_and!; [| | reflexivity]; intros (? & ? & ? & _); congruence. }
  rewrite bool_decide_eq_true_2 by eauto.
  destruct (decide (p ∈ stat_denied st)) as [Hs|Hs].
  { right; left. rewrite (bool_decide_eq_true_2 _ Hs). simpl.
    split_and!; [| | done].
    - intros (? & ? & ? & _ & ? & _). done.
    - exists c, mtime. auto. }
  rewrite (bool_decide_eq_false_2 _ Hs), Hp. cbn beta iota.
  destruct (Qlt_le_dec mtime cutoff_time) as [Hold|Hnew].
  - destruct (decide (p ∈ remove_denied st)) as [Hr|Hr].
    + right; left. rewrite (bool_decide_eq_true_2 _ Hr). simpl.
      split_and!; [| | done].
      * intros (? & ? & ? & _ & _ & ?). done.
      * exists c, mtime. auto.
    + left. rewrite (bool_decide_eq_false_2 _ Hr), Hp. simpl.
      split; [| done]. exists c, mtime. auto.
  - right; right. simpl. split_and!; [| | done].
    + intros (c' & m' & Hf & Hlt & _). simplify_eq.
      by apply Qle_not_lt in Hnew.
    + intros (c' & m' & Hf & [? | [Hlt _]]); simplify_eq; [done |].
      by apply Qle_not_lt in Hnew.
Qed.

Lemma evictable_after_delete st (cutoff_time : Q) (p0 p : path) :
  evictable (set_files (delete p0 (files st)) st) cutoff_time p
  ↔ p ≠ p0 ∧ evictable st cutoff_time p.
Proof.
  unfold evictable. simpl. split.
  - intros (c & m & Hf & H). destruct (decide (p = p0)) as [->|Hne].
    + by rewrite lookup_delete_eq in Hf.
    + rewrite lookup_delete_ne in Hf by done. eauto.
  - intros (Hne & c & m & Hf & H). exists c, m.
    rewrite lookup_delete_ne by done. eauto.
Qed.

Lemma evictable_not_failing st (cutoff_time : Q) (p : path) :
  evictable st cutoff_time p → ¬ eviction_fails st cutoff_time p.
Proof.
  intros (c & m & Hf & _ & Hs & Hr) (c' & m' & Hf' & [? | [_ ?]]); done.
Qed.

(** The loop of the eviction over any list of names: it never raises,
    removes exactly the evictable files among the listed paths, reports
    each listed file it fails on, counts the removals, and touches nothing
    else. *)
Lemma cleanup_cache_loop (directory : path) (cutoff_time : Q) (names : list str)
    (count : Z) st :
  ∃ count' st' evs,
    for_fold names count (cleanup_cache_step directory cutoff_time) st
      = (Ok count', st', evs)
    ∧ dirs st' = dirs st ∧ clock st' = clock st ∧ world st' = world st
    ∧ written evs = []
    ∧ count' = count + Z.of_nat (length (removed evs))
    ∧ (∀ p, p ∈ os_path_join directory <$> names → evictable st cutoff_time p →
            files st' !! p = None ∧ p ∈ removed evs)
    ∧ (∀ p, ¬ (p ∈ os_path_join directory <$> names ∧ evictable st cutoff_time p) →
            files st' !! p = files st !! p ∧ p ∉ removed evs)
    ∧ (∀ p, p ∈ os_path_join directory <$> names → eviction_fails st cutoff_time p →
            EvLog ERROR (MsgCleanupError p OSError) false ∈ evs).
Proof.
  revert count st. induction names as [|name names IH]; intros count st.
  - eexists _, _, _. split; [reflexivity |]. cbn.
    split_and!; try done; try lia.
    + intros p Hp. by apply elem_of_nil in Hp.
    + intros p _. split; [done | apply not_elem_of_nil].
    + intros p Hp. by apply elem_of_nil in Hp.
  - cbn [for_fold]. rewrite bind_run. rewrite fmap_cons.
    set (p0 := os_path_join directory name).
    pose proof (cleanup_cache_step_run directory cutoff_time count name st) as Hstep.
    cbv zeta in Hstep. fold p0 in Hstep.
    destruct Hstep as [[Hev ->] | [(Hnev & Hfail & ->) | (Hnev & Hnfail & ->)]].
    + (* the file is removed *)
      destruct (IH (count + 1) (set_files (delete p0 (files st)) st))
        as (count' & st' & evs & -> & Hd & Hc & Hw & Hwr & Hcount & Hgone & Hkept & Hlog).
      eexists _, _, _. split; [reflexivity |]. events_norm. cbv beta iota.
      split_and!; try done.
      * rewrite Hcount. cbn [length]. lia.
      * intros p Hin Hp. destruct (decide (p = p0)) as [->|Hne].
        -- destruct (Hkept p0) as [Hk _].
           { intros [_ H]. apply evictable_after_delete in H as [? _]. done. }
           rewrite Hk. simpl. rewrite lookup_delete_eq. split; [done | left].
        -- apply elem_of_cons in Hin as [? | Hin]; [done |].
           destruct (Hgone p Hin) as [Hg Hr]; [by apply evictable_after_delete |].
           split; [done | by right].
      * intros p Hp. assert (p ≠ p0) as Hne.
        { intros ->. apply Hp. split; [left | done]. }
        destruct (Hkept p) as [Hk Hr].
        { intros [Hin H]. apply evictable_after_delete in H as [_ H].
          apply Hp. split; [by right | done]. }
        rewrite Hk. simpl. rewrite lookup_delete_ne by done.
        split; [done |]. rewrite not_elem_of_cons. done.
      * intros p Hin (c & m & Hf & Hwhy).
        assert (p ≠ p0) as Hne.
        { intros ->. eapply evictable_not_failing; [exact Hev |]. by exists c, m. }
        apply elem_of_cons in Hin as [? | Hin]; [done |]. right.
        apply Hlog; [done |]. exists c, m. simpl.
        rewrite lookup_delete_ne by done. done.
    + (* the eviction fails on the file *)
      destruct (IH count st)
        as (count' & st' & evs & -> & Hd & Hc & Hw & Hwr & Hcount & Hgone & Hkept & Hlog).
      eexists _, _, _. split; [reflexivity |]. events_norm. cbv beta iota.
      split_and!; try done.
      * intros p Hin Hp. apply elem_of_cons in Hin as [-> | Hin]; [done |]. by apply Hgone.
      * intros p Hp. apply Hkept. intros [Hin H]. apply Hp. split; [by right | done].
      * intros p Hin Hp. apply elem_of_cons in Hin as [-> | Hin]; [left |].
        right. by apply Hlog.
    + (* nothing to do for the file *)
      destruct (IH count st)
        as (count' & st' & evs & -> & Hd & Hc & Hw & Hwr & Hcount & Hgone & Hkept & Hlog).
      eexists _, _, _. split; [reflexivity |]. cbn [app].
      split_and!; try done.
      * intros p Hin Hp. apply elem_of_cons in Hin as [-> | Hin]; [done |]. by apply Hgone.
      * intros p Hp. apply Hkept. intros [Hin H]. apply Hp. split; [by right | done].
      * intros p Hin Hp. apply elem_of_cons in Hin as [-> | Hin]; [done |]. by apply Hlog.
Qed.

Lemma remove_prefix_Some (pre s r : str) : remove_prefix pre s = Some r ↔ s = pre ++ r.
Proof.
  revert s. induction pre as [|a pre IH]; intros s; simpl.
  - split; [by intros [= ->] | by intros ->].
  - destruct s as [|b s]; [done |].
    destruct (N.eqb_spec a b) as [->|Hne].
    + rewrite IH. split; [by intros -> | by intros [= ->]].
    + split; [done | intros [= ? _]; done].
Qed.

Lemma os_path_join_name (directory name : path) :
  47%N ∉ name → os_path_join directory name = os_path_join directory [] ++ name.
Proof.
  intros Hname. unfold os_path_join.
  assert (startswith (lit "/") name = false) as ->.
  { apply bool_decide_eq_false. intros [k ->]. apply Hname. left. }
  assert (startswith (lit "/") [] = false) as -> by done.
  destruct (_ || _); [by rewrite app_nil_r | by rewrite app_nil_r, <- app_assoc].
Qed.

Lemma entry_name_Some (directory p name : path) :
  entry_name directory p = Some name
  ↔ name ≠ [] ∧ (47%N ∉ name) ∧ p = os_path_join directory name.
Proof.
  unfold entry_name.
  destruct (remove_prefix (os_path_join directory []) p) as [r|] eqn:Hr.
  - apply remove_prefix_Some in Hr.
    destruct (truthy r && negb (bool_decide (47%N ∈ r))) eqn:Hok.
    + apply andb_true_iff in Hok as [Ht Hs].
      apply truthy_true in Ht. apply negb_true_iff, bool_decide_eq_false in Hs.
      split.
      * intros [= <-]. split_and!; [done | done |]. by rewrite os_path_join_name.
      * intros (_ & Hn & Hp). rewrite os_path_join_name in Hp by done.
        rewrite Hr in Hp. by apply app_inv_head in Hp as ->.
    + split; [done |]. intros (Hne & Hn & Hp).
      rewrite os_path_join_name in Hp by done.
      rewrite Hr in Hp. apply app_inv_head in Hp as ->.
      apply andb_false_iff in Hok as [Ht | Hs].
      * apply truthy_false in Ht. done.
      * apply negb_false_iff, bool_decide_eq_true in Hs. done.
  - split; [done |]. intros (_ & Hn & Hp). rewrite os_path_join_name in Hp by done.
    apply remove_prefix_Some in Hp. congruence.
Qed.

(** The listing of a directory names exactly the files and directories
    directly under it. *)
Lemma os_listdir_paths (directory p : path) st :
  p ∈ os_path_join directory
        <$> omap (entry_name directory) (elements (dom (files st) ∪ dirs st))
  ↔ (is_Some (files st !! p) ∨ p ∈ dirs st) ∧ in_directory directory p.
Proof.
  rewrite list_elem_of_fmap. setoid_rewrite list_elem_of_omap.
  setoid_rewrite elem_of_elements. setoid_rewrite elem_of_union.
  setoid_rewrite elem_of_dom. setoid_rewrite entry_name_Some. split.
  - intros (name & -> & q & Hq & Hne & Hn & ->). split; [done |]. by exists name.
  - intros (Hq & name & Hne & Hn & ->). exists name. split; [done |].
    by exists (os_path_join directory name).
Qed.

Lemma for_fold_careful {A S} (args : arguments) (body : S → A → M W S) (l : list A) :
  (∀ s x st r st' evs, body s x st = (r, st', evs) → careful args st st' evs) →
  ∀ s st r st' evs, for_fold l s body st = (r, st', evs) → careful args st st' evs.
Proof.
  intros Hbody. induction l as [|x l IH]; intros s st r st' evs.
  - intros [= <- <- <-]. by apply careful_quiet.
  - cbn [for_fold]. rewrite bind_run.
    destruct (body s x st) as [[rb st1] ev1] eqn:Hb. apply Hbody in Hb.
    destruct rb as [s1|e]; [| by intros [= <- <- <-]].
    destruct (for_fold l s1 body st1) as [[r2 st2] ev2] eqn:Hl.
    apply IH in Hl. intros [= <- <- <-]. by eapply careful_app.
Qed.

Lemma process_season_step_careful (args : arguments) (v : video) (prompt bvid : str)
    (counter : Z) (pg : page_details) st r st' evs :
  process_season_step args v prompt bvid counter pg st = (r, st', evs) →
  careful args st st' evs.
Proof.
  rewrite process_season_step_run.
  destruct (path_exists st (output_record args counter (part pg))) eqn:Hex.
  - intros [= <- <- <-]. by apply careful_quiet.
  - rewrite bind_run, process_page_unfold.
    destruct (process_page_loop _ _ _ _ _ _ _ _ _ st) as [[rl sl] el] eqn:Hl.
    apply process_page_loop_careful in Hl; [| done].
    destruct rl; unfold ret; intros [= <- <- <-]; by rewrite ?app_nil_r.
Qed.

Lemma process_season_video_careful (args : arguments) (counter : Z) (bvid : str)
    st r st' evs :
  process_season_video args counter bvid st = (r, st', evs) →
  careful args st st' evs.
Proof.
  unfold process_season_video. rewrite bind_run.
  destruct (read_prompt_run (arg_prompt args) st) as [rp ->].
  destruct rp as [prompt|e]; [| intros [= <- <- <-]; by apply careful_quiet].
  rewrite bind_run. unfold try_except. rewrite bind_run. unfold await.
  destruct (video_get_pages svc _ (world st)) as [[all_pages|e] w].
  - unfold ret.
    destruct (for_fold _ _ _ _) as [[r2 st2] ev2] eqn:Hl.
    apply (for_fold_careful args) in Hl;
      [| intros; by eapply process_season_step_careful].
    intros [= <- <- <-]. simpl.
    eapply (careful_app _ _ (set_world w st) _ [_]); [by apply careful_quiet | done].
  - rewrite bind_run. unfold logging, ret. intros [= <- <- <-].
    by apply careful_quiet.
Qed.

(** A run of the season orchestrator is careful. *)
Lemma process_season_careful (args : arguments) (season_id : Z) st r st' evs :
  process_season args season_id st = (r, st', evs) → careful args st st' evs.
Proof.
  unfold process_season. rewrite bind_run. unfold await.
  destruct (series_get_videos svc season_id (world st)) as [[archives|e] w].
  - rewrite bind_run. unfold logging at 1. rewrite bind_run.
    destruct (for_fold _ _ _ _) as [[r2 st2] ev2] eqn:Hl.
    apply (for_fold_careful args) in Hl;
      [| intros; by eapply process_season_video_careful].
    assert (careful args st st2 ([EvCall (CallGetVideos season_id)]
              ++ [EvLog INFO (MsgFoundVideos (Z.of_nat (length archives)) season_id) false]
              ++ ev2)) as Hc.
    { eapply (careful_app _ _ (set_world w st) _ [_]); [by apply careful_quiet |].
      eapply (careful_app _ _ (set_world w st) _ [_]); [by apply careful_quiet | done]. }
    destruct r2; unfold ret; intros [= <- <- <-]; by rewrite ?app_nil_r.
  - intros [= <- <- <-]. by apply careful_quiet.
Qed.

Lemma orchestrate_careful (args : arguments) st r st' evs :
  orchestrate args st = (r, st', evs) → careful args st st' evs.
Proof.
  unfold orchestrate. destruct (arg_season_id args) as [season_id|].
  - destruct (season_id =? 0); [apply process_bvid_careful |].
    apply process_season_careful.
  - apply process_bvid_careful.
Qed.

(** The eviction as a whole, on a directory that exists. *)
Lemma cleanup_cache_run (directory : path) (max_age_days : Z) st :
  path_exists st directory = true →
  let cutoff_time := (clock st - inject_Z (max_age_days * 24 * 60 * 60))%Q in
  ∃ count st' evs,
    for_fold (omap (entry_name directory) (elements (dom (files st) ∪ dirs st))) 0
      (cleanup_cache_step directory cutoff_time) st = (Ok count, st', evs)
    ∧ cleanup_cache directory max_age_days st
      = (Ok tt, st',
         [EvLog INFO (MsgCleaning directory max_age_days) false] ++ evs
         ++ [EvLog INFO (if 0 <? count then MsgRemoved count else MsgNoOutdated) false]).
Proof.
  intros Hex cutoff_time.
  destruct (cleanup_cache_loop directory cutoff_time
              (omap (entry_name directory) (elements (dom (files st) ∪ dirs st))) 0 st)
    as (count & st' & evs & Hfold & _).
  exists count, st', evs. split; [done |].
  unfold cleanup_cache. rewrite bind_run. unfold os_path_exists. rewrite Hex.
  cbn [negb]. rewrite bind_run. unfold logging at 1. rewrite bind_run.
  unfold time_time. rewrite bind_run. unfold os_listdir. rewrite bind_run.
  fold cutoff_time. rewrite Hfold.
  destruct (0 <? count); unfold logging; simpl; by rewrite ?app_nil_r.
Qed.


(** ** Names of cache entries and output records *)

Lemma dropwhile_nil {A} (p : A → bool) (l : list A) :
  dropwhile p l = [] ↔ Forall (fun x => p x = true) l.
Proof.
  induction l as [|x l IH]; simpl.
  - split; [constructor | done].
  - destruct (p x) eqn:Hx.
    + rewrite IH. split; [by constructor | by inversion 1].
    + split; [done | inversion 1; congruence].
Qed.

(** A string strips to nothing exactly when it is made of whitespace. *)
Lemma strip_nil (s : str) : strip s = [] ↔ Forall (fun c => isspace c = true) s.
Proof.
  unfold strip, lstrip.
  destruct (rstrip_split s) as (blanks & Hs & Hb). split.
  - intros H%dropwhile_nil. rewrite Hs. by apply Forall_app.
  - intros H. apply dropwhile_nil. rewrite Hs in H. by apply Forall_app in H as [? _].
Qed.

Lemma strip_head (s : str) (c : char) (r : str) : strip s = c :: r → isspace c = false.
Proof. apply dropwhile_head. Qed.

Lemma repeat_Forall {A} (P : A → Prop) (x : A) (k : nat) : P x → Forall P (repeat x k).
Proof. intros Hx. induction k; simpl; by constructor. Qed.

Lemma uint_digits_range (d : Decimal.uint) :
  Forall (fun c => (48 <= c <= 57)%N) (uint_digits d).
Proof. induction d; simpl; constructor; (lia || done). Qed.

Lemma uint_digits_inj (d d' : Decimal.uint) : uint_digits d = uint_digits d' → d = d'.
Proof.
  revert d'. induction d; intros d'; destruct d'; simpl; intros H;
    try discriminate; try done; injection H as H; f_equal; by apply IHd.
Qed.

Lemma digits_range (n : N) : Forall (fun c => (48 <= c <= 57)%N) (digits n).
Proof. apply uint_digits_range. Qed.

Lemma digits_inj (n m : N) : digits n = digits m → n = m.
Proof.
  unfold digits. intros H%uint_digits_inj.
  rewrite <- (DecimalN.Unsigned.of_to n), <- (DecimalN.Unsigned.of_to m). by rewrite H.
Qed.

Lemma digits_value_acc (d : Decimal.uint) (acc : positive) :
  fold_left (fun a c => (10 * a + (c - 48))%N) (uint_digits d) (N.pos acc)
  = N.pos (Pos.of_uint_acc d acc).
Proof.
  revert acc. induction d; intros acc; cbn [uint_digits fold_left Pos.of_uint_acc];
    [done | ..]; rewrite <- IHd; f_equal; lia.
Qed.

Lemma digits_value_uint (d : Decimal.uint) : digits_value (uint_digits d) = N.of_uint d.
Proof.
  unfold digits_value, N.of_uint.
  induction d; cbn [uint_digits fold_left Pos.of_uint];
    [done | exact IHd | ..]; exact (digits_value_acc d _).
Qed.

(** The decimal digits of a number read back as that number, also behind
    zeros. *)
Lemma digits_value_digits (k : nat) (n : N) :
  digits_value (repeat 48%N k ++ digits n) = n.
Proof.
  induction k as [|k IH]; [| exact IH].
  unfold digits. cbn [repeat app]. rewrite digits_value_uint.
  apply DecimalN.Unsigned.of_to.
Qed.

Lemma str_of_int_chars (n : Z) :
  Forall (fun c => c = 45%N ∨ (48 <= c <= 57)%N) (str_of_int n).
Proof.
  unfold str_of_int. destruct (n <? 0).
  - constructor; [by left |]. eapply Forall_impl; [apply digits_range |]. by right.
  - eapply Forall_impl; [apply digits_range |]. by right.
Qed.

Lemma str_of_int_inj (n m : Z) : str_of_int n = str_of_int m → n = m.
Proof.
  unfold str_of_int. change (lit "-") with [45%N].
  destruct (Z.ltb_spec n 0) as [Hn|Hn], (Z.ltb_spec m 0) as [Hm|Hm]; intros Heq.
  - apply app_inv_head in Heq. apply digits_inj in Heq. lia.
  - pose proof (digits_range (Z.abs_N m)) as Hr. rewrite <- Heq in Hr.
    apply Forall_cons in Hr as [? _]. cbn beta in *. lia.
  - pose proof (digits_range (Z.abs_N n)) as Hr. rewrite Heq in Hr.
    apply Forall_cons in Hr as [? _]. cbn beta in *. lia.
  - apply digits_inj in Heq. lia.
Qed.

Lemma format_03d_chars (n : Z) :
  Forall (fun c => c = 45%N ∨ (48 <= c <= 57)%N) (format_03d n).
Proof.
  unfold format_03d. cbv zeta. rewrite !Forall_app. split_and!.
  - destruct (n <? 0); repeat constructor.
  - apply repeat_Forall. right. lia.
  - eapply Forall_impl; [apply digits_range |]. by right.
Qed.

Lemma format_03d_inj (n m : Z) : format_03d n = format_03d m → n = m.
Proof.
  assert (Hr : ∀ k a, Forall (fun c => (48 <= c <= 57)%N) (repeat 48%N k ++ digits a)).
  { intros k a. apply Forall_app. split; [apply repeat_Forall; lia | apply digits_range]. }
  unfold format_03d. cbv zeta. change (lit "-") with [45%N].
  destruct (Z.ltb_spec n 0) as [Hn|Hn], (Z.ltb_spec m 0) as [Hm|Hm]; intros Heq.
  - apply app_inv_head in Heq. apply (f_equal digits_value) in Heq.
    rewrite !digits_value_digits in Heq. lia.
  - specialize (Hr (3 - length (@nil char) - length (digits (Z.abs_N m)))%nat (Z.abs_N m)).
    cbn [app] in Heq. rewrite <- Heq in Hr. apply Forall_cons in Hr as [? _]. cbn beta in *. lia.
  - specialize (Hr (3 - length (@nil char) - length (digits (Z.abs_N n)))%nat (Z.abs_N n)).
    cbn [app] in Heq. rewrite Heq in Hr. apply Forall_cons in Hr as [? _]. cbn beta in *. lia.
  - cbn [app] in Heq. apply (f_equal digits_value) in Heq.
    rewrite !digits_value_digits in Heq. lia.
Qed.

Lemma split_at_first {A} (x : A) (l1 r1 l2 r2 : list A) :
  x ∉ l1 → x ∉ l2 → l1 ++ x :: r1 = l2 ++ x :: r2 → l1 = l2 ∧ r1 = r2.
Proof.
  revert l2. induction l1 as [|a l1 IH]; intros [|b l2] H1 H2 Heq; simpl in *.
  - by injection Heq.
  - injection Heq as <- _. exfalso. apply H2. left.
  - injection Heq as -> _. exfalso. apply H1. left.
  - injection Heq as -> Heq. apply not_elem_of_cons in H1 as [_ H1].
    apply not_elem_of_cons in H2 as [_ H2].
    by destruct (IH l2 H1 H2 Heq) as [-> ->].
Qed.

Lemma split_at_last {A} (x : A) (l1 r1 l2 r2 : list A) :
  x ∉ r1 → x ∉ r2 → l1 ++ x :: r1 = l2 ++ x :: r2 → l1 = l2 ∧ r1 = r2.
Proof.
  intros H1 H2. revert l2. induction l1 as [|a l1 IH]; intros [|b l2] Heq; simpl in *.
  - by injection Heq.
  - injection Heq as -> ->. exfalso. apply H1. apply elem_of_app. right. left.
  - injection Heq as -> <-. exfalso. apply H2. apply elem_of_app. right. left.
  - injection Heq as -> Heq. by destruct (IH l2 Heq) as [-> ->].
Qed.

Lemma no_separator_in_number (n : Z) :
  (47%N ∉ format_03d n) ∧ (95%N ∉ format_03d n)
  ∧ (47%N ∉ str_of_int n) ∧ (95%N ∉ str_of_int n).
Proof.
  pose proof (format_03d_chars n) as Hf. pose proof (str_of_int_chars n) as Hs.
  rewrite Forall_forall in Hf. rewrite Forall_forall in Hs.
  split_and!; intros Hin; [apply Hf in Hin | apply Hf in Hin | apply Hs in Hin
                          | apply Hs in Hin]; lia.
Qed.

Lemma os_path_join_cache_inj (b b' : path) :
  os_path_join CACHE_DIR b = os_path_join CACHE_DIR b' → b = b'.
Proof.
  assert (Hrel : ∀ c, startswith (lit "/") (CACHE_DIR ++ lit "/" ++ c) = false).
  { intros c. unfold startswith. apply bool_decide_eq_false.
    intros [k Hk]. cbv in Hk. discriminate. }
  unfold os_path_join.
  change (negb (truthy CACHE_DIR) || endswith (lit "/") CACHE_DIR) with false.
  cbv iota.
  destruct (startswith (lit "/") b) eqn:Hb, (startswith (lit "/") b') eqn:Hb'; intros H.
  - done.
  - rewrite H, Hrel in Hb. discriminate.
  - rewrite <- H, Hrel in Hb'. discriminate.
  - apply app_inv_head in H. by apply app_inv_head in H.
Qed.

(** X1. Two calls of the Subtitle Resolver use the same cache file only when
    they are for the same video identifier and the same page number. *)
Theorem cache_entry_injective (bvid bvid' : str) (n n' : Z) :
  cache_entry bvid n = cache_entry bvid' n' ↔ bvid = bvid' ∧ n = n'.
Proof.
  split; [| by intros [-> ->]].
  unfold cache_entry. intros H%os_path_join_cache_inj.
  apply app_inv_tail in H. change (lit "_") with [95%N] in H.
  apply split_at_last in H; [| apply no_separator_in_number ..].
  destruct H as [-> H]. by apply str_of_int_inj in H as ->.
Qed.

(** X2. The output records of one run are told apart by their save number:
    two records coincide only when the save numbers are equal and the titles
    sanitise to the same name. *)
Theorem output_record_injective (args : arguments) (n n' : Z) (title title' : str) :
  output_record args n title = output_record args n' title'
  ↔ n = n' ∧ safe_filename title = safe_filename title'.
Proof.
  unfold output_record, safe_filename. split; [| by intros [-> ->]].
  assert (Hp : ∀ x, startswith (lit "/") (lit "P" ++ x) = false).
  { intros x. by apply startswith_cons. }
  unfold os_path_join. rewrite !Hp. intros H.
  assert (format_03d n ++ lit "_"
          ++ rstrip (filter (fun c => allowed_in_filename c) title) ++ lit ".md"
          = format_03d n' ++ lit "_"
            ++ rstrip (filter (fun c => allowed_in_filename c) title') ++ lit ".md") as H'.
  { destruct (negb (truthy (arg_output_dir args)) || endswith (lit "/") (arg_output_dir args)).
    - apply app_inv_head in H. by injection H.
    - apply app_inv_head in H. by injection H. }
  change (lit "_") with [95%N] in H'.
  apply split_at_first in H'; [| apply no_separator_in_number ..].
  destruct H' as [Hn Ht]. apply format_03d_inj in Hn. by apply app_inv_tail in Ht.
Qed.

(** X3. When the path separator is not alphanumeric, the file name of an
    output record has no separator in it, so that the record lies directly
    under the output directory whatever the title is. *)
Theorem output_record_in_output_dir (args : arguments) (n : Z) (title : str) :
  isalnum svc 47%N = false →
  in_directory (arg_output_dir args) (output_record args n title).
Proof.
  intros Hsep.
  exists (lit "P" ++ format_03d n ++ lit "_" ++ safe_filename title ++ lit ".md").
  split; [done |]. split; [| done].
  rewrite !not_elem_of_app. split_and!.
  - by apply (bool_decide_unpack _).
  - apply no_separator_in_number.
  - by apply (bool_decide_unpack _).
  - unfold safe_filename.
    destruct (rstrip_split (filter (fun c => allowed_in_filename c) title))
      as (blanks & Hs & _).
    intros Hin.
    assert (47%N ∈ filter (fun c => allowed_in_filename c) title) as Hf.
    { rewrite Hs. apply elem_of_app. by left. }
    apply list_elem_of_filter in Hf as [Hf _]. unfold allowed_in_filename in Hf.
    rewrite Hsep in Hf. done.
  - by apply (bool_decide_unpack _).
Qed.

(** ** The transcription collaborator's text *)

Lemma join_Forall (P : char → Prop) (sep : str) (parts : list str) :
  Forall P sep → Forall P (join sep parts) ↔ Forall (Forall P) parts.
Proof.
  intros Hsep. induction parts as [|p parts IH].
  - split; constructor.
  - destruct parts as [|q rest].
    + simpl. rewrite Forall_singleton. done.
    + change (join sep (p :: q :: rest)) with (p ++ sep ++ join sep (q :: rest)).
      rewrite !Forall_app, IH, (Forall_cons _ p). tauto.
Qed.

(** X4. In text mode the transcript [generate_subtitles] returns is the
    stripped segment texts joined by newlines, and it is blank exactly when
    every segment text is: silence gives a transcript that is neither cached
    nor summarised. *)
Theorem generate_subtitles_text_blank_iff (audio_file : audio) (model_size device : str)
    (segments : list segment) (w : W) st :
  whisper_transcribe svc audio_file model_size device
    (if contains (lit "cuda") device then lit "int8" else lit "float32") (world st)
  = (Ok segments, w) →
  ∃ text,
    generate_subtitles audio_file Text model_size device st
    = (Ok text, set_world w st, [EvCall (CallTranscribe model_size device)])
    ∧ text = join [10%N] (map (fun sg => strip (seg_text sg)) segments)
    ∧ (strip text = [] ↔ Forall (fun sg => strip (seg_text sg) = []) segments).
Proof.
  intros Hw. eexists. split; [| split; [reflexivity |]].
  - unfold generate_subtitles. rewrite bind_run. unfold await. rewrite Hw. reflexivity.
  - rewrite strip_nil, join_Forall by (by repeat constructor).
    rewrite Forall_map. apply Forall_proper; [| done]. intros sg. cbn beta.
    split.
    + intros Hall. destruct (strip (seg_text sg)) as [|c r] eqn:Hs; [done |].
      apply strip_head in Hs. apply Forall_cons in Hall as [? _]. congruence.
    + intros ->. constructor.
Qed.

(** X5. In timestamped mode every segment contributes its time line, so
    that the transcript is blank only when the audio has no segment at all:
    unlike in text mode, segments of silence do not make it blank. *)
Theorem generate_subtitles_timestamped_blank_iff (audio_file : audio)
    (model_size device : str) (segments : list segment) (w : W) st :
  whisper_transcribe svc audio_file model_size device
    (if contains (lit "cuda") device then lit "int8" else lit "float32") (world st)
  = (Ok segments, w) →
  ∃ text,
    generate_subtitles audio_file Timestamped model_size device st
    = (Ok text, set_world w st, [EvCall (CallTranscribe model_size device)])
    ∧ (strip text = [] ↔ segments = []).
Proof.
  intros Hw. eexists. split.
  - unfold generate_subtitles. rewrite bind_run. unfold await. rewrite Hw. reflexivity.
  - split; [| by intros ->].
    rewrite strip_nil, join_Forall by (by repeat constructor).
    destruct segments as [|sg segments]; [done |].
    rewrite fmap_cons, Forall_cons, !Forall_app. intros [(_ & Harrow & _) _].
    apply Forall_cons in Harrow as [_ Harrow].
    apply Forall_cons in Harrow as [Hminus _]. done.
Qed.

(** ** The Subtitle Resolver and its cache *)





(** ** One attempt of the Page Processor, step by step *)

Lemma after_resolution_run (sn : Z) (title prompt : str) (args : arguments)
    (text : str) st :
  strip text ≠ [] →
  after_resolution sn title prompt args (Some text) st
  = match summarize text prompt st with
    | (Ok (Some s), st1, ev1) =>
        if truthy s then
          (Ok tt,
           set_files (<[output_record args sn title := (s, clock st1)]> (files st1))
             (set_dirs ({[arg_output_dir args]} ∪ dirs st1) st1),
           ev1 ++ [EvMkdir (arg_output_dir args);
                   EvWrite (output_record args sn title) s;
                   EvLog INFO (MsgSaved (output_record args sn title)) false])
        else (Ok tt, st1, ev1 ++ [EvLog ERROR (MsgSummaryFailed sn) false])
    | (Ok None, st1, ev1) => (Ok tt, st1, ev1 ++ [EvLog ERROR (MsgSummaryFailed sn) false])
    | (Raise e, st1, ev1) => (Raise e, st1, ev1)
    end.
Proof.
  intros Hnb. unfold after_resolution.
  rewrite truthy_strip. destruct (strip text) as [|c s0] eqn:Hs; [done |].
  cbn [truthy]. rewrite bind_run.
  destruct (summarize text prompt st) as [[[[s|]|e] st1] ev1]; [| done | done].
  destruct (truthy s); [| done].
  rewrite bind_run, save_run. reflexivity.
Qed.

Lemma process_page_attempt_run (v : video) (n sn : Z) (title prompt bvid : str)
    (args : arguments) st :
  process_page_attempt v n sn title prompt bvid args st
  = match get_subtitle v n (arg_device args) (arg_model_size args) bvid st with
    | (Ok t, st1, ev1) =>
        match after_resolution sn title prompt args t st1 with
        | (r, st2, ev2) => (r, st2, EvLog INFO (MsgProcessing sn title) false :: ev1 ++ ev2)
        end
    | (Raise e, st1, ev1) => (Raise e, st1, EvLog INFO (MsgProcessing sn title) false :: ev1)
    end.
Proof.
  rewrite process_page_attempt_unfold, bind_run. unfold logging at 1. rewrite bind_run.
  destruct (get_subtitle v n _ _ bvid st) as [[[t|e] st1] ev1]; [| done].
  by destruct (after_resolution sn title prompt args t st1) as [[r st2] ev2].
Qed.


(** X9. The page whose summary fails.  When the resolver returns a transcript
    that is not blank and the summarizer returns no summary or an empty
    one, the Page Processor logs the failure as an error and returns after
    this one attempt: there is no retry and no sleep, and no output record
    is written, so the page is tried again by the next run. *)
Theorem process_page_summary_failure (v : video) (pg : page_details) (prompt bvid : str)
    (args : arguments) (save_page_number : option Z) st (text : str) st1 ev1
    (summary : option str) st2 ev2 :
  let sn := save_number_of pg save_page_number in
  (get_subtitle v (page pg) (arg_device args) (arg_model_size args) bvid st
    = (Ok (Some text), st1, ev1)) →
  strip text ≠ [] →
  summarize text prompt st1 = (Ok summary, st2, ev2) →
  summary = None ∨ summary = Some [] →
  let evs :=
    [EvLog INFO (MsgProcessing sn (part pg)) false] ++ ev1 ++ ev2
    ++ [EvLog ERROR (MsgSummaryFailed sn) false] in
  process_page v pg prompt bvid args save_page_number st = (Ok tt, st2, evs)
  ∧ written evs = written ev1
  ∧ files st2 = files st1 ∧ dirs st2 = dirs st
  ∧ attempts_made evs = 1%nat ∧ sleeps evs = [].
Proof.
  intros sn Hg Hnb Hs Hnone evs.
  pose proof (get_subtitle_effect _ _ _ _ _ _ _ _ _ Hg)
    as (Hdg & _ & _ & _ & _ & Hatt & Hsl & _).
  pose proof (summarize_effect _ _ _ _ _ _ Hs) as (Hf & Hd & _ & _ & _ & ->).
  split.
  { rewrite process_page_unfold, process_page_loop_cons, process_page_attempt_run, Hg.
    fold sn. rewrite after_resolution_run, Hs by done.
    subst evs. by destruct Hnone as [-> | ->]; cbn [truthy]; rewrite <- ?app_assoc. }
  subst evs. events_norm. rewrite Hatt, Hsl, !app_nil_r.
  split_and!; try done. congruence.
Qed.




(** No path is written twice. *)
Lemma nodup_written_app (args : arguments) st st1 st2 ev1 ev2 :
  careful args st st1 ev1 → careful args st1 st2 ev2 →
  NoDup (written ev1).*1 → NoDup (written ev2).*1 →
  NoDup (written (ev1 ++ ev2)).*1.
Proof.
  intros C1 C2 N1 N2. rewrite written_app, fmap_app.
  apply NoDup_app. split; [done |]. split; [| done].
  intros p Hp1 Hp2.
  apply list_elem_of_fmap in Hp1 as ([p1 c1] & -> & Hin1).
  apply list_elem_of_fmap in Hp2 as ([p2 c2] & Heq & Hin2). simpl in Heq. subst p2.
  pose proof (careful_kept _ _ _ _ C1) as Hk. rewrite Forall_forall in Hk.
  destruct (Hk _ Hin1) as [t Hkt]. simpl in Hkt.
  pose proof (careful_fresh _ _ _ _ C2) as Hfr. rewrite Forall_forall in Hfr.
  specialize (Hfr _ Hin2). simpl in Hfr.
  apply path_exists_false in Hfr as [Hnone _]. congruence.
Qed.

Lemma process_page_attempt_nodup (v : video) (n sn : Z) (title prompt bvid : str)
    (args : arguments) st r st' evs :
  process_page_attempt v n sn title prompt bvid args st = (r, st', evs) →
  NoDup (written evs).*1.
Proof.
  intros Ha. apply process_page_attempt_effect in Ha.
  destruct Ha as (_ & _ & _ & _ & _ & _ & cw & ow & -> & Hcw & How & _).
  destruct Hcw as [-> | (t & -> & _)];
    destruct How as [[-> _] | (s & -> & _)]; cbn;
    [apply NoDup_nil_2 | apply NoDup_singleton | apply NoDup_singleton |].
  apply NoDup_cons_2; [| apply NoDup_singleton].
  intros Hin%list_elem_of_singleton.
  by eapply output_record_not_cache_entry.
Qed.

Lemma process_page_loop_nodup (attempts : list nat) (max_retries : nat)
    (v : video) (n sn : Z) (title prompt bvid : str) (args : arguments) st r st' evs :
  path_exists st (output_record args sn title) = false →
  process_page_loop attempts max_retries v n sn title prompt bvid args st
    = (r, st', evs) →
  NoDup (written evs).*1.
Proof.
  revert st r st' evs. induction attempts as [|attempt rest IH]; intros st r st' evs Habs.
  - intros [= <- <- <-]. constructor.
  - rewrite process_page_loop_cons.
    destruct (process_page_attempt v n sn title prompt bvid args st)
      as [[ra st1] ev1] eqn:Ha.
    pose proof (process_page_attempt_careful _ _ _ _ _ _ _ _ _ _ _ Habs Ha) as [Ca Hraise].
    apply process_page_attempt_nodup in Ha.
    destruct ra as [[]|e]; [by intros [= <- <- <-] |].
    specialize (Hraise e eq_refl).
    destruct (is_network_error e); cbn zeta.
    + destruct (Z.of_nat attempt + 1 =? Z.of_nat max_retries).
      * destruct (process_page_loop rest _ _ _ _ _ _ _ _ st1) as [[r2 s2] ev2] eqn:Hl.
        pose proof (IH _ _ _ _ Hraise Hl) as N2.
        apply process_page_loop_careful in Hl; [| done]. intros [= <- <- <-].
        eapply nodup_written_app; [exact Ca | | done |].
        -- eapply (careful_app _ st1 st1 _ [_; _]); [by apply careful_quiet | exact Hl].
        -- done.
      * destruct (process_page_loop rest _ _ _ _ _ _ _ _ _) as [[r2 s2] ev2] eqn:Hl.
        assert (NoDup (written ev2).*1) as N2 by (eapply IH; [| exact Hl]; done).
        apply process_page_loop_careful in Hl; [| done]. intros [= <- <- <-].
        eapply nodup_written_app; [exact Ca | | done |].
        -- eapply (careful_app _ _ _ _ [_; _]); [| exact Hl]. by apply careful_quiet.
        -- done.
    + intros [= <- <- <-]. rewrite written_app. cbn. by rewrite app_nil_r.
Qed.

(** X11. A call of the Page Processor for a page whose output record does not
    exist writes each path at most once: at most one cache entry and at
    most one output record, whatever the number of attempts. *)
Theorem process_page_writes_each_path_once (v : video) (pg : page_details)
    (prompt bvid : str) (args : arguments) (save_page_number : option Z) st :
  path_exists st (output_record args (save_number_of pg save_page_number) (part pg))
  = false →
  NoDup (written (process_page v pg prompt bvid args save_page_number st).2).*1
  ∧ (length (written (process_page v pg prompt bvid args save_page_number st).2) <= 2)%nat.
Proof.
  intros Habs. rewrite process_page_unfold.
  set (sn := save_number_of pg save_page_number) in *.
  destruct (process_page_loop [0; 1; 2]%nat 3 v (page pg) sn (part pg) prompt bvid args st)
    as [[r st'] evs] eqn:Hl.
  cbn [snd]. pose proof (process_page_loop_nodup _ _ _ _ _ _ _ _ _ _ _ _ _ Habs Hl) as Hnodup.
  split; [done |].
  apply process_page_loop_writes in Hl.
  rewrite <- (length_fmap fst).
  assert ((written evs).*1 ⊆ [cache_entry bvid (page pg); output_record args sn (part pg)])
    as Hsub.
  { intros p Hp. apply list_elem_of_fmap in Hp as ([p' c] & -> & Hin).
    rewrite Forall_forall in Hl. destruct (Hl _ Hin) as [Hq | Hq]; simpl in Hq; subst;
      set_solver. }
  apply (submseteq_length _ [cache_entry bvid (page pg); output_record args sn (part pg)]).
  by apply NoDup_submseteq.
Qed.

(** ** The orchestrators: how a run can end *)

Lemma read_prompt_file (filename prompt : str) (t : Q) st :
  files st !! prompt_file filename = Some (prompt, t) →
  read_prompt filename st = (Ok prompt, st, []).
Proof.
  unfold prompt_file. intros Hf. unfold read_prompt, try_except, read_text.
  by rewrite Hf.
Qed.


Lemma process_bvid_ok (args : arguments) (prompt : str) (t : Q) st :
  files st !! prompt_file (arg_prompt args) = Some (prompt, t) →
  ∃ st' evs,
    process_bvid args st = (Ok tt, st', EvCall (CallGetPages (arg_bvid args)) :: evs).
Proof.
  intros Hf. unfold process_bvid. rewrite bind_run, (read_prompt_file _ _ _ _ Hf).
  rewrite bind_run. unfold try_except. rewrite bind_run. unfold await. cbn [video_bvid].
  destruct (video_get_pages svc _ (world st)) as [[all_pages|e] w].
  - rewrite bind_run. unfold logging at 1, ret.
    destruct (for_each _ _ _) as [[r2 st2] ev2] eqn:Hl.
    apply (for_each_careful args) in Hl as [-> _];
      [| intros; by eapply process_bvid_step_careful].
    by eexists _, _.
  - rewrite bind_run. unfold logging, ret. by eexists _, _.
Qed.


Lemma process_bvid_pages_save_numbers (args : arguments) (v : video) (prompt : str)
    (pages : list page_details) st r st' evs :
  for_each pages (process_bvid_step args v prompt) st = (r, st', evs) →
  Forall (fun n => n ∈ page <$> pages) (save_numbers evs).
Proof.
  revert st r st' evs. induction pages as [|pg pages IH]; intros st r st' evs.
  - intros [= <- <- <-]. constructor.
  - cbn [for_each]. rewrite bind_run.
    destruct (process_bvid_step args v prompt pg st) as [[rb st1] ev1] eqn:Hb.
    assert (Forall (fun n => n = page pg) (save_numbers ev1)) as H1.
    { revert Hb. rewrite process_bvid_step_run.
      destruct (path_exists st _).
      - intros [= <- <- <-]. by repeat constructor.
      - rewrite process_page_unfold. intros Hl.
        apply process_page_loop_save_numbers in Hl as (k & -> & _).
        apply Forall_forall. by intros n [-> _]%elem_of_replicate. }
    assert (Forall (fun n => n ∈ page <$> pg :: pages) (save_numbers ev1)) as H1'.
    { eapply Forall_impl; [exact H1 |]. intros n ->. rewrite fmap_cons. left. }
    destruct rb as [[]|e]; [| by intros [= <- <- <-]].
    destruct (for_each pages _ st1) as [[r2 st2] ev2] eqn:Hl.
    apply IH in Hl. intros [= <- <- <-].
    rewrite save_numbers_app. apply Forall_app. split; [done |].
    eapply Forall_impl; [exact Hl |]. intros n Hn. rewrite fmap_cons. by right.
Qed.

(** X13. The page range of the single-video orchestrator.  Every page that a
    run skips or hands to the Page Processor has a page number that is at
    least [start_page] and, when [end_page] is given, at most [end_page];
    pages outside the range are not touched. *)
Theorem process_bvid_respects_page_range (args : arguments) st :
  Forall (fun n => arg_start_page args <= n
                   ∧ match arg_end_page args with
                     | Some end_page => n <= end_page
                     | None => True
                     end)
    (save_numbers (process_bvid args st).2).
Proof.
  unfold process_bvid. rewrite bind_run.
  destruct (read_prompt_run (arg_prompt args) st) as [rp ->].
  destruct rp as [prompt|e]; [| constructor].
  rewrite bind_run. unfold try_except. rewrite bind_run. unfold await.
  destruct (video_get_pages svc _ (world st)) as [[all_pages|e] w].
  - rewrite bind_run. unfold logging at 1, ret.
    destruct (for_each _ _ _) as [[r2 st2] ev2] eqn:Hl.
    apply process_bvid_pages_save_numbers in Hl. cbn.
    eapply Forall_impl; [exact Hl |]. intros n Hn.
    apply list_elem_of_fmap in Hn as (pg & -> & Hin).
    apply list_elem_of_filter in Hin as [Hin _].
    apply andb_prop_elim in Hin as [H1 H2].
    apply Is_true_true in H1. apply Z.leb_le in H1. split; [done |].
    destruct (arg_end_page args); [| done].
    apply Is_true_true in H2. by apply Z.leb_le in H2.
  - rewrite bind_run. unfold logging, ret. cbn. constructor.
Qed.

(** X14. Season mode reads only the prompt name, the output directory, the
    device and the model size of the arguments: the page range and the
    video identifier given on the command line have no effect on it. *)
Theorem process_season_ignores_page_range (args args' : arguments) (season_id : Z) st :
  arg_prompt args = arg_prompt args' →
  arg_output_dir args = arg_output_dir args' →
  arg_device args = arg_device args' →
  arg_model_size args = arg_model_size args' →
  process_season args season_id st = process_season args' season_id st.
Proof.
  destruct args, args'. cbn. intros -> -> -> ->. reflexivity.
Qed.

(** X15. A run of the season orchestrator only adds files: it removes
    nothing, every file that existed before the run is there afterwards
    with the content and time it had, every write went to a path where
    nothing existed before the run, and what was written is still there at
    the end. *)
Theorem process_season_only_adds_files (args : arguments) (season_id : Z) st :
  let run := process_season args season_id st in
  removed run.2 = []
  ∧ (∀ p x, files st !! p = Some x → files run.1.2 !! p = Some x)
  ∧ Forall (fun pc => path_exists st pc.1 = false) (written run.2)
  ∧ Forall (fun pc => ∃ t, files run.1.2 !! pc.1 = Some (pc.2, t)) (written run.2).
Proof.
  intros run.
  assert (careful args st run.1.2 run.2) as [K _ R F P _].
  { apply (process_season_careful args season_id st run.1.1). subst run.
    by destruct (process_season args season_id st) as [[? ?] ?]. }
  done.
Qed.

Lemma process_season_video_ok (args : arguments) (counter : Z) (bvid prompt : str)
    (t : Q) st :
  files st !! prompt_file (arg_prompt args) = Some (prompt, t) →
  ∃ c' st' evs, process_season_video args counter bvid st = (Ok c', st', evs).
Proof.
  intros Hf. unfold process_season_video.
  rewrite bind_run, (read_prompt_file _ _ _ _ Hf).
  rewrite bind_run. unfold try_except. rewrite bind_run. unfold await.
  destruct (video_get_pages svc _ (world st)) as [[all_pages|e] w].
  - unfold ret.
    destruct (process_season_pages_numbered args (Video bvid) prompt bvid all_pages
                counter (set_world w st)) as (st' & evs & -> & _).
    by eexists _, _, _.
  - rewrite bind_run. unfold logging, ret. by eexists _, _, _.
Qed.

Lemma process_season_videos_ok (args : arguments) (archives : list str) (counter : Z)
    (prompt : str) (t : Q) st :
  files st !! prompt_file (arg_prompt args) = Some (prompt, t) →
  ∃ c' st' evs,
    for_fold archives counter (process_season_video args) st = (Ok c', st', evs).
Proof.
  revert counter st. induction archives as [|bvid archives IH]; intros counter st Hf.
  - by eexists _, _, _.
  - cbn [for_fold]. rewrite bind_run.
    destruct (process_season_video_ok args counter bvid prompt t st Hf)
      as (c1 & st1 & ev1 & Hv).
    rewrite Hv. apply process_season_video_careful in Hv.
    destruct (IH c1 st1) as (c2 & st2 & ev2 & ->); [by apply (careful_keeps _ _ _ _ Hv) |].
    by eexists _, _, _.
Qed.

Lemma process_season_ok (args : arguments) (season_id : Z) (prompt : str) (t : Q)
    (archives : list str) (w : W) st :
  files st !! prompt_file (arg_prompt args) = Some (prompt, t) →
  series_get_videos svc season_id (world st) = (Ok archives, w) →
  ∃ st' evs, process_season args season_id st = (Ok tt, st', evs).
Proof.
  intros Hf Hs. unfold process_season. rewrite bind_run. unfold await. rewrite Hs.
  rewrite bind_run. unfold logging at 1. rewrite bind_run.
  destruct (process_season_videos_ok args archives 1 prompt t (set_world w st) Hf)
    as (c & st' & evs & ->).
  unfold ret. by eexists _, _.
Qed.

(** X16. With a prompt file in place and a series listing that answers, a
    run of the season orchestrator returns normally, whatever the other
    collaborators do on any page of any video. *)
Theorem process_season_returns_normally (args : arguments) (season_id : Z)
    (prompt : str) (t : Q) (archives : list str) (w : W) st :
  files st !! prompt_file (arg_prompt args) = Some (prompt, t) →
  series_get_videos svc season_id (world st) = (Ok archives, w) →
  ∃ st' evs,
    process_season args season_id st
    = (Ok tt, st',
       [EvCall (CallGetVideos season_id);
        EvLog INFO (MsgFoundVideos (Z.of_nat (length archives)) season_id) false] ++ evs).
Proof.
  intros Hf Hs. unfold process_season. rewrite bind_run. unfold await. rewrite Hs.
  rewrite bind_run. unfold logging at 1. rewrite bind_run.
  destruct (process_season_videos_ok args archives 1 prompt t (set_world w st) Hf)
    as (c & st' & evs & ->).
  unfold ret. exists st', evs. by rewrite app_nil_r.
Qed.


(** ** The eviction once more, and the program as a whole *)

(** What the loop of the eviction removes was listed and evictable, and
    the loop leaves the refusals of the operating system as they were. *)
Lemma cleanup_cache_loop_removed (directory : path) (cutoff_time : Q) (names : list str)
    (count : Z) st r st' evs :
  for_fold names count (cleanup_cache_step directory cutoff_time) st = (r, st', evs) →
  stat_denied st' = stat_denied st ∧ remove_denied st' = remove_denied st
  ∧ Forall (fun p => p ∈ os_path_join directory <$> names ∧ evictable st cutoff_time p)
      (removed evs).
Proof.
  revert count st r st' evs.
  induction names as [|name names IH]; intros count st r st' evs.
  - intros [= <- <- <-]. by split_and!.
  - cbn [for_fold]. rewrite bind_run, fmap_cons.
    set (p0 := os_path_join directory name).
    pose proof (cleanup_cache_step_run directory cutoff_time count name st) as Hstep.
    cbv zeta in Hstep. fold p0 in Hstep.
    destruct Hstep as [[Hev ->] | [(Hnev & Hfail & ->) | (Hnev & Hnfail & ->)]];
      destruct (for_fold names _ _ _) as [[r2 s2] ev2] eqn:Hl;
      apply IH in Hl as (Hs & Hr & Hall); intros [= <- <- <-];
      events_norm; cbv beta iota; (split; [done |]); (split; [done |]).
    + constructor; [split; [left | done] |].
      eapply Forall_impl; [exact Hall |]. intros p [Hin H].
      apply evictable_after_delete in H as [_ H]. split; [by right | done].
    + eapply Forall_impl; [exact Hall |]. intros p [Hin H]. split; [by right | done].
    + eapply Forall_impl; [exact Hall |]. intros p [Hin H]. split; [by right | done].
Qed.




Lemma cache_entry_in_cache_dir (bvid : str) (n : Z) :
  (47%N ∉ bvid) → in_directory CACHE_DIR (cache_entry bvid n).
Proof.
  intros Hb. exists ((bvid ++ lit "_" ++ str_of_int n) ++ lit ".txt").
  split; [| split; [| done]].
  - intros H. apply app_eq_nil in H as [_ H]. discriminate.
  - rewrite !not_elem_of_app. split_and!; try done.
    + by apply (bool_decide_unpack _).
    + apply no_separator_in_number.
    + by apply (bool_decide_unpack _).
Qed.

(** X20. Cache entries expire.  The cache file of a video identifier without
    a path separator lies directly under the cache directory, so that the
    eviction reaches it: once it is older than the age limit (and the
    operating system lets it go) the eviction removes it, and the next call
    of the Subtitle Resolver for that page finds no cache entry and
    resolves the transcript anew, starting with the content-id lookup. *)
Theorem expired_cache_entry_is_resolved_again (bvid : str) (n : Z) (max_age_days : Z) st :
  (47%N ∉ bvid) →
  path_exists st CACHE_DIR = true →
  evictable st (clock st - inject_Z (max_age_days * 24 * 60 * 60))%Q (cache_entry bvid n) →
  ∃ st' evs,
    cleanup_cache CACHE_DIR max_age_days st = (Ok tt, st', evs)
    ∧ (cache_entry bvid n ∈ removed evs)
    ∧ files st' !! cache_entry bvid n = None
    ∧ ((cache_entry bvid n ∉ dirs st) → ∀ v dev ms, ∃ evs',
         (get_subtitle v n dev ms bvid st').2
         = EvLog INFO (MsgCacheMiss n) false
           :: EvCall (CallGetCid (video_bvid v) (n - 1)) :: evs').
Proof.
  intros Hb Hex Hev.
  destruct (cleanup_cache_run CACHE_DIR max_age_days st Hex)
    as (count & st' & evs & Hfold & Hrun).
  cbv zeta in Hfold.
  destruct (cleanup_cache_loop CACHE_DIR
              (clock st - inject_Z (max_age_days * 24 * 60 * 60))%Q
              (omap (entry_name CACHE_DIR) (elements (dom (files st) ∪ dirs st))) 0 st)
    as (count2 & st2 & evs2 & Hfold2 & Hd & _ & _ & _ & _ & Hgone & _).
  rewrite Hfold in Hfold2. injection Hfold2 as <- <- <-.
  destruct (Hgone (cache_entry bvid n)) as [Hnone Hrem]; [| done |].
  { apply os_listdir_paths. split; [| by apply cache_entry_in_cache_dir].
    destruct Hev as (c & m & Hf & _). left. eauto. }
  exists st', ([EvLog INFO (MsgCleaning CACHE_DIR max_age_days) false] ++ evs
               ++ [EvLog INFO (if 0 <? count then MsgRemoved count else MsgNoOutdated) false]).
  split; [exact Hrun |]. split; [| split; [done |]].
  - events_norm. cbv beta iota. rewrite app_nil_r. done.
  - intros Hnd v dev ms.
    assert (path_exists st' (cache_entry bvid n) = false) as Hmiss.
    { apply path_exists_false. by rewrite Hd. }
    unfold get_subtitle. fold (cache_entry bvid n).
    unfold mbind, M_bind, bind, os_path_exists, logging, await. rewrite Hmiss.
    repeat case_match; simplify_eq; by eexists.
Qed.

(** [main.main], step by step. *)
Lemma main_run (args : arguments) st :
  let st0 := set_dirs ({[CACHE_DIR]} ∪ dirs st) st in
  let cutoff_time := (clock st0 - inject_Z (CACHE_MAX_AGE_DAYS * 24 * 60 * 60))%Q in
  ∃ count st1 ev1,
    for_fold (omap (entry_name CACHE_DIR) (elements (dom (files st0) ∪ dirs st0))) 0
      (cleanup_cache_step CACHE_DIR cutoff_time) st0 = (Ok count, st1, ev1)
    ∧ main args st
      = match orchestrate args st1 with
        | (r, st2, ev2) =>
            (r, st2,
             [EvMkdir CACHE_DIR; EvLog INFO (MsgCleaning CACHE_DIR CACHE_MAX_AGE_DAYS) false]
             ++ ev1
             ++ [EvLog INFO (if 0 <? count then MsgRemoved count else MsgNoOutdated) false]
             ++ ev2)
        end.
Proof.
  intros st0 cutoff_time.
  assert (path_exists st0 CACHE_DIR = true) as Hex0.
  { unfold path_exists. simpl. rewrite bool_decide_eq_true_2 by set_solver.
    apply orb_true_r. }
  destruct (cleanup_cache_run CACHE_DIR CACHE_MAX_AGE_DAYS _ Hex0)
    as (count & st1 & ev1 & Hfold & Hrun).
  exists count, st1, ev1. split; [exact Hfold |].
  change (main args) with
    (os_makedirs CACHE_DIR;; cleanup_cache CACHE_DIR CACHE_MAX_AGE_DAYS;; orchestrate args).
  rewrite bind_run. unfold os_makedirs at 1. fold st0. rewrite bind_run, Hrun.
  destruct (orchestrate args st1) as [[r st2] ev2].
  cbn [app]. by rewrite <- !app_assoc.
Qed.

(** X21. What the whole program does to the files it finds.  The only files
    a run removes lie directly under the cache directory and were older
    than thirty days when the run started.  Every file outside the cache
    directory, and every file that is not older than thirty days, is there
    at the end with the content and time it had: the program never
    overwrites or removes an output record, a prompt or any other file of
    the user.  The cache directory exists at the end. *)
Theorem main_removes_only_expired_cache_files (args : arguments) st :
  let run := main args st in
  let cutoff_time := (clock st - inject_Z (CACHE_MAX_AGE_DAYS * 24 * 60 * 60))%Q in
  Forall (fun p => in_directory CACHE_DIR p ∧ evictable st cutoff_time p) (removed run.2)
  ∧ (∀ p x, ¬ in_directory CACHE_DIR p → files st !! p = Some x →
            files run.1.2 !! p = Some x)
  ∧ (∀ p c mtime, files st !! p = Some (c, mtime) → (cutoff_time <= mtime)%Q →
                  files run.1.2 !! p = Some (c, mtime))
  ∧ CACHE_DIR ∈ dirs run.1.2.
Proof.
  intros run cutoff_time. subst run.
  destruct (main_run args st) as (count & st1 & ev1 & Hfold & ->).
  set (st0 := set_dirs ({[CACHE_DIR]} ∪ dirs st) st) in *.
  change (clock st0) with (clock st) in Hfold. fold cutoff_time in Hfold.
  destruct (cleanup_cache_loop CACHE_DIR cutoff_time
              (omap (entry_name CACHE_DIR) (elements (dom (files st0) ∪ dirs st0))) 0 st0)
    as (count2 & st2 & evs2 & Hfold2 & Hd & _ & _ & _ & _ & _ & Hkept & _).
  pose proof (cleanup_cache_loop_removed _ _ _ _ _ _ _ _ Hfold) as (_ & _ & Hall).
  rewrite Hfold in Hfold2. injection Hfold2 as <- <- <-.
  destruct (orchestrate args st1) as [[r st2] ev2] eqn:Ho.
  apply orchestrate_careful in Ho. destruct Ho as [K D R _ _ _].
  cbn [fst snd]. events_norm. cbv beta iota. rewrite R, !app_nil_r.
  split_and!.
  - eapply Forall_impl; [exact Hall |]. intros p [Hin Hev]. split; [| done].
    by apply os_listdir_paths in Hin as [_ ?].
  - intros p x Hout Hf. apply K. destruct (Hkept p) as [-> _]; [| done].
    intros [Hin _]. by apply os_listdir_paths in Hin as [_ ?].
  - intros p c mtime Hf Hnew. apply K. destruct (Hkept p) as [-> _]; [| done].
    intros [_ (c' & m' & Hf' & Hlt & _)]. cbn [files set_dirs st0] in Hf'.
    simplify_eq. by apply Qle_not_lt in Hnew.
  - apply D. rewrite Hd. cbn. apply elem_of_union_l. by apply elem_of_singleton.
Qed.

Lemma prompt_file_not_cached (filename : str) : ¬ in_directory CACHE_DIR (prompt_file filename).
Proof.
  intros (name & _ & Hn & Heq). rewrite os_path_join_name in Heq by done.
  apply (f_equal head) in Heq. cbv in Heq. discriminate.
Qed.

(** X22. When the prompt file is in place, the whole program ends with an
    exception in one case only: in season mode, when the series listing
    fails; the exception is then the one of the listing.  In every other
    case the program returns normally, whatever the collaborators answer. *)
Theorem main_raises_only_when_listing_fails (args : arguments) (prompt : str) (t : Q) st :
  files st !! prompt_file (arg_prompt args) = Some (prompt, t) →
  (main args st).1.1 = Ok tt
  ∨ ∃ season_id e w,
      arg_season_id args = Some season_id ∧ season_id ≠ 0
      ∧ series_get_videos svc season_id (world st) = (Raise e, w)
      ∧ (main args st).1.1 = Raise e.
Proof.
  intros Hf.
  destruct (main_run args st) as (count & st1 & ev1 & Hfold & ->).
  set (st0 := set_dirs ({[CACHE_DIR]} ∪ dirs st) st) in *.
  destruct (cleanup_cache_loop CACHE_DIR
              (clock st0 - inject_Z (CACHE_MAX_AGE_DAYS * 24 * 60 * 60))%Q
              (omap (entry_name CACHE_DIR) (elements (dom (files st0) ∪ dirs st0))) 0 st0)
    as (count2 & st2 & evs2 & Hfold2 & _ & _ & Hw & _ & _ & _ & Hkept & _).
  rewrite Hfold in Hfold2. injection Hfold2 as <- <- <-.
  assert (files st1 !! prompt_file (arg_prompt args) = Some (prompt, t)) as Hf1.
  { destruct (Hkept (prompt_file (arg_prompt args))) as [-> _]; [| done].
    intros [Hin _]. apply os_listdir_paths in Hin as [_ Hdir].
    by apply prompt_file_not_cached in Hdir. }
  change (world st0) with (world st) in Hw.
  assert (∃ st2 evs, process_bvid args st1 = (Ok tt, st2, evs)) as Hbvid.
  { destruct (process_bvid_ok args prompt t st1 Hf1) as (s & e & ->). by eexists _, _. }
  unfold orchestrate. destruct (arg_season_id args) as [season_id|] eqn:Hsid.
  2: { destruct Hbvid as (s & e & ->). by left. }
  destruct (Z.eqb_spec season_id 0) as [Hz|Hz].
  { destruct Hbvid as (s & e & ->). by left. }
  destruct (series_get_videos svc season_id (world st1)) as [[archives|e] w] eqn:Hs.
  - destruct (process_season_ok args season_id prompt t archives w st1 Hf1 Hs)
      as (s & e & ->). by left.
  - right. exists season_id, e, w. rewrite <- Hw. split_and!; try done.
    unfold process_season. rewrite bind_run. unfold await. by rewrite Hs.
Qed.

(** ** What a whole run writes *)
















(** ** The single-video orchestrator over its pages *)

Lemma process_bvid_pages_visited (args : arguments) (v : video) (prompt : str)
    (pages : list page_details) st :
  ∃ ks st' evs,
    for_each pages (process_bvid_step args v prompt) st = (Ok tt, st', evs)
    ∧ save_numbers evs = concat (zip_with replicate ks (page <$> pages))
    ∧ length ks = length pages ∧ Forall (fun k => (1 <= k)%nat) ks.
Proof.
  revert st. induction pages as [|pg pages IH]; intros st.
  - exists [], st, []. done.
  - cbn [for_each]. rewrite bind_run.
    destruct (process_bvid_step args v prompt pg st) as [[rb st1] ev1] eqn:Hb.
    assert (rb = Ok tt ∧ ∃ k, save_numbers ev1 = replicate k (page pg) ∧ (1 <= k)%nat)
      as [-> (k & Hk & Hle)].
    { pose proof (process_bvid_step_careful _ _ _ _ _ _ _ _ Hb) as [-> _].
      split; [done |]. revert Hb. rewrite process_bvid_step_run.
      destruct (path_exists st _).
      - intros [= <- <-]. by exists 1%nat.
      - rewrite process_page_unfold. intros Hl.
        apply process_page_loop_save_numbers in Hl as (k & -> & Hpos).
        exists k. split; [done |]. by apply Hpos. }
    destruct (IH st1) as (ks & st2 & ev2 & -> & Hs & Hlen & Hall).
    exists (k :: ks), st2, (ev1 ++ ev2). split; [done |].
    rewrite save_numbers_app, Hk, Hs. split; [done |].
    split; [simpl; by rewrite Hlen | by constructor].
Qed.

(** X24. No page of the range is left out.  With a prompt file in place and
    a page list that arrives, a run of the single-video orchestrator takes
    the pages of the range one after the other, in the order of the list,
    and skips or starts each of them at least once: a page that fails -
    whatever the failure - never keeps the later pages from their turn. *)
Theorem process_bvid_visits_every_page_in_range (args : arguments) (prompt : str) (t : Q)
    (all_pages : list page_details) (w : W) st :
  files st !! prompt_file (arg_prompt args) = Some (prompt, t) →
  video_get_pages svc (arg_bvid args) (world st) = (Ok all_pages, w) →
  ∃ ks,
    save_numbers (process_bvid args st).2
    = concat (zip_with replicate ks (page <$> pages_to_process args all_pages))
    ∧ length ks = length (pages_to_process args all_pages)
    ∧ Forall (fun k => (1 <= k)%nat) ks.
Proof.
  intros Hf Hp. unfold process_bvid.
  rewrite bind_run, (read_prompt_file _ _ _ _ Hf).
  rewrite bind_run. unfold try_except. rewrite bind_run. unfold await.
  cbn [video_bvid]. rewrite Hp. rewrite bind_run. unfold logging at 1, ret.
  fold (pages_to_process args all_pages).
  destruct (process_bvid_pages_visited args (Video (arg_bvid args)) prompt
              (pages_to_process args all_pages) (set_world w st))
    as (ks & st' & evs & -> & Hs & Hlen & Hall).
  exists ks. cbn. done.
Qed.

Lemma process_bvid_pages_done (args : arguments) (v : video) (prompt : str)
    (pages : list page_details) st :
  Forall (fun pg => path_exists st (output_record args (page pg) (part pg)) = true) pages →
  for_each pages (process_bvid_step args v prompt) st
  = (Ok tt, st, (fun pg => EvLog INFO (MsgSkipping (page pg) (part pg)) false) <$> pages).
Proof.
  induction 1 as [|pg pages Hpg _ IH]; [done |].
  cbn [for_each]. rewrite bind_run, process_bvid_step_run, Hpg, IH. done.
Qed.

(** X25. A run over finished work.  When every page of the range has its
    output record, a run of the single-video orchestrator asks for the
    page list and does nothing more than log one skip per page: no other
    collaborator is called, nothing is written, and the state is the one
    the page-list request left. *)
Theorem process_bvid_all_done (args : arguments) (prompt : str) (t : Q)
    (all_pages : list page_details) (w : W) st :
  files st !! prompt_file (arg_prompt args) = Some (prompt, t) →
  video_get_pages svc (arg_bvid args) (world st) = (Ok all_pages, w) →
  Forall (fun pg => path_exists st (output_record args (page pg) (part pg)) = true)
    (pages_to_process args all_pages) →
  process_bvid args st
  = (Ok tt, set_world w st,
     [EvCall (CallGetPages (arg_bvid args));
      EvLog INFO (MsgFoundPages (Z.of_nat (length all_pages)) (arg_bvid args)) false]
     ++ ((fun pg => EvLog INFO (MsgSkipping (page pg) (part pg)) false)
           <$> pages_to_process args all_pages)).
Proof.
  intros Hf Hp Hdone. unfold process_bvid.
  rewrite bind_run, (read_prompt_file _ _ _ _ Hf).
  rewrite bind_run. unfold try_except. rewrite bind_run. unfold await.
  cbn [video_bvid]. rewrite Hp. rewrite bind_run. unfold logging at 1, ret.
  fold (pages_to_process args all_pages).
  rewrite (process_bvid_pages_done args _ prompt _ (set_world w st)); [done |].
  exact Hdone.
Qed.

End Pipeline.

(** ** The theorems at work on the sample world *)

(** Three transient failures of the platform: three attempts, sleeps of 5
    and 10 seconds, a normal return. *)
Lemma process_page_retries_with_backoff_witness :
  ∃ st' evs,
    process_page (sample_services ClientError [lit "hello"]) sample_video sample_page
      (lit "Summarize.") (lit "BV1") sample_args None (sample_state 3)
    = (Ok tt, st', evs)
    ∧ sleeps evs = [5; 10] ∧ attempts_made evs = 3%nat.
Proof.
  destruct (process_page_retries_with_backoff (sample_services ClientError [lit "hello"])
              sample_video sample_page (lit "Summarize.") (lit "BV1") sample_args None
              (sample_state 3)) as (_ & _ & H).
  edestruct H as (Hrun & Hsleeps & Hattempts).
  - vm_compute. reflexivity.
  - reflexivity.
  - vm_compute. reflexivity.
  - reflexivity.
  - vm_compute. reflexivity.
  - eexists _, _. split; [exact Hrun |]. split; [exact Hsleeps | exact Hattempts].
Defined.


(** Official subtitles with an empty body: the transcript is blank, the
    summarizer is not called and nothing is written. *)
Lemma process_page_skips_blank_transcript_witness :
  ∃ st' evs,
    process_page (sample_services ClientError []) sample_video sample_page
      (lit "Summarize.") (lit "BV1") sample_args None (sample_state 0)
    = (Ok tt, st', evs)
    ∧ Forall (fun c => is_completion_call c = false) (calls evs)
    ∧ written evs = [] ∧ attempts_made evs = 1%nat.
Proof.
  edestruct (process_page_skips_blank_transcript (sample_services ClientError [])
               sample_video sample_page (lit "Summarize.") (lit "BV1") sample_args None
               (sample_state 0)) as (Hrun & _ & Hcalls & Hwritten & _ & Hattempts & _).
  - vm_compute. reflexivity.
  - reflexivity.
  - eexists _, _. split; [exact Hrun |]. split; [exact Hcalls |].
    split; [exact Hwritten | exact Hattempts].
Defined.

Lemma get_subtitle_cache_hit_witness :
  get_subtitle (sample_services OtherException []) sample_video 2 (lit "cpu")
    (lit "small") (lit "BV1") cached_state
  = (Ok (Some (lit "   ")), cached_state, [EvLog INFO (MsgCacheLoad 2) false]).
Proof.
  refine (proj1 (get_subtitle_cache_hit (sample_services OtherException []) sample_video
                   2 (lit "cpu") (lit "small") (lit "BV1") cached_state (lit "   ") 7%Q _)).
  vm_compute. reflexivity.
Defined.


(** Two runs of the single-video orchestrator on the sample video, the
    second from the state the first one left: the first run writes two
    cache entries and two output records, the second run writes nothing
    and starts no attempt. *)
Lemma run_eta {A B C : Type} (run : A * B * C) : run = (run.1.1, run.1.2, run.2).
Proof. by destruct run as [[? ?] ?]. Qed.

Lemma process_bvid_rerun_is_idempotent_witness :
  let svc := sample_services ClientError [lit "hello"] in
  let first_run := process_bvid svc sample_args (sample_state 0) in
  let second_run := process_bvid svc sample_args first_run.1.2 in
  (written first_run.2).*1
  = [lit ".cache/subtitles/BV1_1.txt"; lit "result/P001_Intro.md";
     lit ".cache/subtitles/BV1_2.txt"; lit "result/P002_Ep1  Intro.md"]
  ∧ Forall (fun pc => ∃ t, files second_run.1.2 !! pc.1 = Some (pc.2, t))
      (written first_run.2)
  ∧ written second_run.2 = [] ∧ removed second_run.2 = []
  ∧ started second_run.2 = [].
Proof.
  intros svc first_run second_run.
  destruct (process_bvid_rerun_is_idempotent svc sample_args (sample_state 0)
              first_run.1.1 first_run.1.2 first_run.2
              second_run.1.1 second_run.1.2 second_run.2)
    as (_ & Hremoved & _ & Hkept & _).
  - exact (run_eta first_run).
  - exact (run_eta second_run).
  - split; [vm_compute; reflexivity |]. split; [exact Hkept |].
    split; [vm_compute; reflexivity |]. split; [exact Hremoved |].
    vm_compute; reflexivity.
Defined.


(** The title of the specification's example, with trailing blanks, saved
    as record 7. *)
Example save_example :
  (save (sample_services ClientError []) 7 (lit "Ep:1 / Intro?  ") (lit "text")
     (lit "result") (sample_state 0)).1.1
  = Ok (lit "result/P007_Ep1  Intro.md").
Proof. vm_compute. reflexivity. Qed.

(** A season of three videos: two pages, a video whose page list cannot be
    fetched, three pages.  The attempts started are for the save numbers 1
    to 5 in video-then-page order, and the records are written under those
    numbers. *)
Example process_season_example :
  let run := process_season (sample_services ClientError [lit "hello"]) sample_args 42
               (sample_state 0) in
  run.1.1 = Ok tt
  ∧ squeeze (save_numbers run.2) = [1; 2; 3; 4; 5]
  ∧ started run.2
    = [(1, lit "Intro"); (2, lit "Ep:1 / Intro?"); (3, lit "a"); (4, lit "b"); (5, lit "c")]
  ∧ filter (fun p => is_file run.1.2 p = true)
      [lit "result/P001_Intro.md"; lit "result/P002_Ep1  Intro.md";
       lit "result/P003_a.md"; lit "result/P004_b.md"; lit "result/P005_c.md";
       lit "result/P006_c.md"]
    = [lit "result/P001_Intro.md"; lit "result/P002_Ep1  Intro.md";
       lit "result/P003_a.md"; lit "result/P004_b.md"; lit "result/P005_c.md"].
Proof. vm_compute. repeat split. Qed.

(** ** Further runs on the sample worlds *)

(** A title with separators in it: the record stays under the output
    directory. *)
Lemma output_record_in_output_dir_witness :
  in_directory (arg_output_dir sample_args)
    (output_record (sample_services ClientError []) sample_args 2 (lit "../Ep:1 / Intro?")).
Proof. apply output_record_in_output_dir. reflexivity. Defined.

(** Speech followed by silence: the transcript is not blank in either
    mode. *)
Lemma generate_subtitles_text_blank_iff_witness :
  ∃ text,
    generate_subtitles (audio_services speech (Raise ClientError)) tt Text
      (lit "small") (lit "cpu") (sample_state 0)
    = (Ok text, sample_state 0, [EvCall (CallTranscribe (lit "small") (lit "cpu"))])
    ∧ text = lit "hello" ++ [10%N]
    ∧ (strip text = [] ↔ Forall (fun sg => strip (seg_text sg) = []) speech).
Proof.
  destruct (generate_subtitles_text_blank_iff (audio_services speech (Raise ClientError))
              tt (lit "small") (lit "cpu") speech 0%nat (sample_state 0) eq_refl)
    as (text & Hrun & Htext & Hiff).
  exists text. split; [exact Hrun |]. split; [| exact Hiff].
  rewrite Htext. vm_compute. reflexivity.
Defined.

Lemma generate_subtitles_timestamped_blank_iff_witness :
  ∃ text,
    generate_subtitles (audio_services speech (Raise ClientError)) tt Timestamped
      (lit "small") (lit "cpu") (sample_state 0)
    = (Ok text, sample_state 0, [EvCall (CallTranscribe (lit "small") (lit "cpu"))])
    ∧ (strip text = [] ↔ speech = []).
Proof.
  destruct (generate_subtitles_timestamped_blank_iff
              (audio_services speech (Raise ClientError))
              tt (lit "small") (lit "cpu") speech 0%nat (sample_state 0) eq_refl)
    as (text & Hrun & Hiff).
  exists text. split; [exact Hrun | exact Hiff].
Defined.



(** A completion response without choices: an error is logged, no record
    is written, the transcript stays cached. *)
Lemma process_page_summary_failure_witness :
  ∃ st2 evs,
    process_page (audio_services speech (Ok (ModelResponse (Some [])))) sample_video
      sample_page (lit "Summarize.") (lit "BV1") sample_args None (sample_state 0)
    = (Ok tt, st2, evs)
    ∧ last evs = Some (EvLog ERROR (MsgSummaryFailed 2) false)
    ∧ (written evs).*1 = [lit ".cache/subtitles/BV1_2.txt"].
Proof.
  edestruct (process_page_summary_failure (audio_services speech (Ok (ModelResponse (Some []))))
               sample_video sample_page (lit "Summarize.") (lit "BV1") sample_args None
               (sample_state 0)) as (Hrun & Hwritten & _).
  - vm_compute. reflexivity.
  - vm_compute. discriminate.
  - vm_compute. reflexivity.
  - by left.
  - eexists _, _. split; [exact Hrun |].
    split; [reflexivity | rewrite Hwritten; vm_compute; reflexivity].
Defined.


Lemma process_page_writes_each_path_once_witness :
  (written (process_page (audio_services speech (Raise ClientError)) sample_video
              sample_page (lit "Summarize.") (lit "BV1") sample_args None
              (sample_state 0)).2).*1
  = [lit ".cache/subtitles/BV1_2.txt"]
  ∧ NoDup (written (process_page (audio_services speech (Raise ClientError)) sample_video
                      sample_page (lit "Summarize.") (lit "BV1") sample_args None
                      (sample_state 0)).2).*1.
Proof.
  split; [vm_compute; reflexivity |].
  apply (process_page_writes_each_path_once (audio_services speech (Raise ClientError))
           sample_video sample_page (lit "Summarize.") (lit "BV1") sample_args None
           (sample_state 0)).
  vm_compute. reflexivity.
Defined.

(** Season mode with another video identifier and a page range on the
    command line: the run is the same. *)
Lemma process_season_ignores_page_range_witness :
  process_season (sample_services ClientError [lit "hello"]) sample_args 42 (sample_state 0)
  = process_season (sample_services ClientError [lit "hello"]) ranged_args 42 (sample_state 0).
Proof. apply process_season_ignores_page_range; reflexivity. Defined.

(** The sample season, with a platform that fails on its second video. *)
Lemma process_season_returns_normally_witness :
  ∃ st' evs,
    process_season (sample_services ClientError [lit "hello"]) sample_args 42 (sample_state 0)
    = (Ok tt, st',
       [EvCall (CallGetVideos 42); EvLog INFO (MsgFoundVideos 3 42) false] ++ evs).
Proof.
  edestruct (process_season_returns_normally (sample_services ClientError [lit "hello"])
               sample_args 42 (lit "Summarize.") 0%Q [lit "BV1"; lit "BV0"; lit "BV2"]
               0%nat (sample_state 0)) as (st' & evs & Hrun).
  - vm_compute. reflexivity.
  - reflexivity.
  - exists st', evs. exact Hrun.
Defined.

(** A cache entry that is older than the age limit: the eviction removes
    it and the next call resolves the page anew. *)
Lemma expired_cache_entry_is_resolved_again_witness :
  ∃ st' evs,
    cleanup_cache CACHE_DIR 0 cached_state = (Ok tt, st', evs)
    ∧ cache_entry (lit "BV1") 2 ∈ removed evs.
Proof.
  destruct (expired_cache_entry_is_resolved_again (sample_services ClientError [])
              (lit "BV1") 2 0 cached_state) as (st' & evs & Hrun & Hin & _).
  - apply (bool_decide_unpack _). vm_compute. exact I.
  - vm_compute. reflexivity.
  - exists (lit "   "), 7%Q. split; [vm_compute; reflexivity |].
    split; [vm_compute; reflexivity |].
    split; apply (bool_decide_unpack _); vm_compute; exact I.
  - exists st', evs. split; [exact Hrun | exact Hin].
Defined.

(** The whole program on the sample video. *)
Lemma main_raises_only_when_listing_fails_witness :
  (main (sample_services ClientError [lit "hello"]) sample_args (sample_state 0)).1.1 = Ok tt.
Proof.
  destruct (main_raises_only_when_listing_fails (sample_services ClientError [lit "hello"])
              sample_args (lit "Summarize.") 0%Q (sample_state 0))
    as [Hok | (season_id & e & w & Hsid & _)].
  - vm_compute. reflexivity.
  - exact Hok.
  - discriminate Hsid.
Defined.

(** The second page only: the first page is outside the range and is
    neither skipped nor started. *)
Lemma process_bvid_visits_every_page_in_range_witness :
  ∃ ks,
    save_numbers (process_bvid (sample_services ClientError [lit "hello"]) ranged_args
                    (sample_state 0)).2
    = concat (zip_with replicate ks [2])
    ∧ length ks = 1%nat ∧ Forall (fun k => (1 <= k)%nat) ks.
Proof.
  edestruct (process_bvid_visits_every_page_in_range
               (sample_services ClientError [lit "hello"]) ranged_args (lit "Summarize.") 0%Q
               (sample_pages (lit "BV2")) 0%nat (sample_state 0)) as (ks & Hs & Hlen & Hall).
  - vm_compute. reflexivity.
  - reflexivity.
  - exists ks. split; [exact Hs |]. split; [exact Hlen | exact Hall].
Defined.

(** The sample video a second time, after a complete first run: the page
    list is asked for and both pages are skipped. *)
Lemma process_bvid_all_done_witness :
  let svc := sample_services ClientError [lit "hello"] in
  let first := process_bvid svc sample_args (sample_state 0) in
  process_bvid svc sample_args first.1.2
  = (Ok tt, set_world 0%nat first.1.2,
     [EvCall (CallGetPages (lit "BV1")); EvLog INFO (MsgFoundPages 2 (lit "BV1")) false]
     ++ [EvLog INFO (MsgSkipping 1 (lit "Intro")) false;
         EvLog INFO (MsgSkipping 2 (lit "Ep:1 / Intro?")) false]).
Proof.
  intros svc first.
  apply (process_bvid_all_done svc sample_args (lit "Summarize.") 0%Q
           (sample_pages (lit "BV1")) 0%nat first.1.2).
  - vm_compute. reflexivity.
  - vm_compute. reflexivity.
  - vm_compute. repeat constructor.
Defined.
